(** * The MAC wrapper of go/mac/mac_factory.go

    A shallow embedding of the keyset-backed MAC primitive ([wrappedMAC]):
    its constructor [newWrappedMAC] and its two methods [ComputeMAC] and
    [VerifyMAC], followed by the properties the specification states
    about them.

    Go values are modelled as follows.
    - [[]byte] is [list byte]; a Go [string] is a [string]; the conversion
      [string(b)] is [string_of_list_byte] and appending a string to a byte
      slice goes through [list_byte_of_string].
    - a value of type [error] is [Errorf msg]; a result of type [error] is
      an [option error] with [None] for [nil]; a result of type
      [(T, error)] is a [result T].
    - a value of type [interface{}] is an [interface]; the type assertion
      [x.(tink.MAC)] is [asMAC].
    - every call that the wrapper delegates to a key's primitive is
      recorded in a log, so that "is called", "is not called" and "is called
      in this order" are statements about the embedding. *)

From Stdlib Require Import Strings.Byte.
From stdpp Require Import base option list strings gmap fin_maps pretty.

Abbreviation bytes := (list byte).

#[global] Instance byte_eq_dec : EqDecision byte := Byte.byte_eq_dec.

(** ** Errors and results *)

Inductive error : Type :=
| Errorf (msg : string).

Inductive result (A : Type) : Type :=
| Ok (a : A)
| Err (e : error).
Arguments Ok {A} a.
Arguments Err {A} e.

(** ** The imported interfaces *)

Module tink.

(** [tink.MAC]: the interface every wrapped primitive has to implement,
    with the two methods that [wrappedMAC] implements and calls:
    [ComputeMAC(data []byte) ([]byte, error)] and
    [VerifyMAC(mac, data []byte) error]. *)
Record MAC : Type := {
  ComputeMAC : bytes -> result bytes;
  VerifyMAC : bytes -> bytes -> option error
}.

End tink.

Module tinkpb.

(** Modelled from the spec: the enumeration [tinkpb.OutputPrefixType] is
    declared in the generated package tink_go_proto, which is not part of
    the sources at hand.  Section 3: "prefixType: enum {RAW, TINK, LEGACY,
    CRUNCHY}". *)
Inductive OutputPrefixType : Type :=
| OutputPrefixType_TINK
| OutputPrefixType_LEGACY
| OutputPrefixType_RAW
| OutputPrefixType_CRUNCHY.

Definition is_LEGACY (t : OutputPrefixType) : bool :=
  match t with OutputPrefixType_LEGACY => true | _ => false end.

Definition is_RAW (t : OutputPrefixType) : bool :=
  match t with OutputPrefixType_RAW => true | _ => false end.

End tinkpb.

(** A value held in an [interface{}] field: either it implements
    [tink.MAC], or it is a value of some other type (an AEAD, say),
    remembered by the name of that type. *)
Inductive interface : Type :=
| MACPrimitive (p : tink.MAC)
| OtherPrimitive (typeName : string).

(** The type assertion [x.(tink.MAC)]; [None] is [ok == false]. *)
Definition asMAC (x : interface) : option tink.MAC :=
  match x with
  | MACPrimitive p => Some p
  | OtherPrimitive _ => None
  end.

Module primitiveset.

(** Modelled from the spec: the struct [primitiveset.Entry] is declared
    in go/core/primitiveset, which is not part of the sources at hand.
    Section 3, "Key Entry": the fields mac_factory.go reads ([Primitive],
    [Prefix], [PrefixType]) and the key identifier. *)
Record Entry : Type := {
  KeyID : N;
  Primitive : interface;
  Prefix : string;
  PrefixType : tinkpb.OutputPrefixType
}.

(** Modelled from the spec: the struct [primitiveset.PrimitiveSet] is
    declared in go/core/primitiveset as well.  Section 3, "Primitive Set":
    the primary entry and the "mapping from prefix-byte-sequence to ordered
    set of Key Entries sharing that prefix", the two fields mac_factory.go
    reads ([Primary], [Entries]). *)
Record PrimitiveSet : Type := {
  Primary : Entry;
  Entries : gmap string (list Entry)
}.

(** Modelled from the spec: the methods of [PrimitiveSet] live in
    go/core/primitiveset, which is not part of the sources at hand.
    Section 4.1: "lookupByPrefix(prefixBytes) -> ordered sequence of Key
    Entry (empty if prefix unknown)", a pure lookup with "no error path
    beyond no match (empty sequence)". *)
Definition lookupByPrefix (ps : PrimitiveSet) (prefixBytes : string)
  : result (list Entry) :=
  match Entries ps !! prefixBytes with
  | Some entries => Ok entries
  | None => Ok []
  end.

(** Modelled from the spec: section 4.1, "rawEntries() -> ordered
    sequence of Key Entry", of the same absent package; by section 3 the
    prefix of an entry "is empty iff prefixType == RAW", so the RAW
    entries are the ones that share the empty prefix. *)
Definition rawEntries (ps : PrimitiveSet) : result (list Entry) :=
  lookupByPrefix ps "".

End primitiveset.
Import primitiveset.

(** ** Delegated calls *)

(** One call from the wrapper into the primitive of a key entry. *)
Inductive Call : Type :=
| ComputeMACCall (e : Entry) (data : bytes)
| VerifyMACCall (e : Entry) (mac data : bytes).

(** A computation that returns an [A] and the calls it made, in order. *)
Definition M (A : Type) : Type := (A * list Call)%type.

Definition ret {A} (a : A) : M A := (a, []).

Definition bind {A B} (m : M A) (f : A -> M B) : M B :=
  let '(a, l1) := m in
  let '(b, l2) := f a in
  (b, l1 ++ l2).
Arguments bind : simpl never.

Notation "x <- m ;; k" := (bind m (fun x => k))
  (at level 100, m at next level, right associativity).

(** [p.ComputeMAC(data)] on the primitive [p] of entry [e]. *)
Definition callComputeMAC (e : Entry) (p : tink.MAC) (data : bytes)
  : M (result bytes) :=
  (tink.ComputeMAC p data, [ComputeMACCall e data]).

(** [p.VerifyMAC(mac, data)] on the primitive [p] of entry [e]. *)
Definition callVerifyMAC (e : Entry) (p : tink.MAC) (mac data : bytes)
  : M (option error) :=
  (tink.VerifyMAC p mac data, [VerifyMACCall e mac data]).

(** ** The command-line flag *)

(** [flag.Bool(name, value, usage)]: the flag holds [value] unless the
    configuration [set] (the parsed command line) gives it a value. *)
Definition flag_Bool (name : string) (value : bool) (usage : string)
  (set : gmap string bool) : bool :=
  default value (set !! name).

Definition enableComputeOldLegacyMac : gmap string bool -> bool :=
  flag_Bool "enable_compute_old_legacy_mac" true
    "Lets MAC primitive compute MACs for keys of type LEGACY in an old incompatible format.".

(** ** The wrapper *)

Record wrappedMAC : Type := {
  ps : PrimitiveSet
}.

(** The inner loop of [newWrappedMAC]; [Some err] is the early return. *)
Fixpoint checkPrimitives (primitives : list Entry) : option error :=
  match primitives with
  | [] => None
  | p :: rest =>
      match asMAC (Primitive p) with
      | None => Some (Errorf "mac_factory: not an MAC primitive")
      | Some _ => checkPrimitives rest
      end
  end.

(** The outer loop of [newWrappedMAC], over the map in some order. *)
Fixpoint checkEntries (entries : list (string * list Entry)) : option error :=
  match entries with
  | [] => None
  | (_, primitives) :: rest =>
      match checkPrimitives primitives with
      | Some err => Some err
      | None => checkEntries rest
      end
  end.

Definition newWrappedMAC (ps : PrimitiveSet) : result wrappedMAC :=
  match asMAC (Primitive (Primary ps)) with
  | None => Err (Errorf "mac_factory: not a MAC primitive")
  | Some _ =>
      match checkEntries (map_to_list (Entries ps)) with
      | Some err => Err err
      | None => Ok {| ps := ps |}
      end
  end.

Definition errLegacyDisabled : error :=
  Errorf "mac_factory: computation of old LEGACY MACs is disabled, to enable add flag --enable_compute_old_legacy_mac=true".

(** [ComputeMAC]; [flags] is the flag configuration of the process, read
    when the primary is a LEGACY key.  The two nested [if]s of the source
    guard one [return] and are written as one condition: [&&] looks at
    the flag only for a LEGACY primary. *)
Definition ComputeMAC (flags : gmap string bool) (m : wrappedMAC)
  (data : bytes) : M (result bytes) :=
  let primary := Primary (ps m) in
  match asMAC (Primitive primary) with
  | None => ret (Err (Errorf "mac_factory: not a MAC primitive"))
  | Some primitive =>
      if tinkpb.is_LEGACY (PrefixType (Primary (ps m)))
         && negb (enableComputeOldLegacyMac flags)
      then ret (Err errLegacyDisabled)
      else
        r <- callComputeMAC primary primitive data ;;
        match r with
        | Err err => ret (Err err)
        | Ok mac => ret (Ok (String.list_byte_of_string (Prefix primary) ++ mac))
        end
  end.

Definition errInvalidMAC : error := Errorf "mac_factory: invalid mac".

(** What a loop of [VerifyMAC] leaves behind: it returned from the
    function, or it ran to its end. *)
Inductive LoopExit : Type :=
| Return (err : option error)
| Fallthrough.

(** The loop [for i := 0; i < len(entries); i++] of [VerifyMAC]; the two
    loops of the function have the same body and differ in the tag they
    hand to the primitive. *)
Fixpoint verifyLoop (entries : list Entry) (mac data : bytes) : M LoopExit :=
  match entries with
  | [] => ret Fallthrough
  | e :: rest =>
      match asMAC (Primitive e) with
      | None => ret (Return (Some (Errorf "mac_factory: not an MAC primitive")))
      | Some p =>
          err <- callVerifyMAC e p mac data ;;
          match err with
          | None => ret (Return None)
          | Some _ => verifyLoop rest mac data
          end
      end
  end.

(** [entries, err := lookup; if err == nil { loop }]. *)
Definition verifyEntries (lookup : result (list Entry)) (mac data : bytes)
  : M LoopExit :=
  match lookup with
  | Ok entries => verifyLoop entries mac data
  | Err _ => ret Fallthrough
  end.

(** ** Sample keysets

    Toy primitives and primitive sets, used to run the wrapper on concrete
    inputs. *)

(** A keyed toy MAC with tags of [size] bytes: the first [size] bytes of
    the key byte followed by the data, padded with the key byte. *)
Definition toyTag (key : byte) (size : nat) (data : bytes) : bytes :=
  take size (key :: data ++ replicate size key).

Definition toyMAC (key : byte) (size : nat) : tink.MAC := {|
  tink.ComputeMAC data := Ok (toyTag key size data);
  tink.VerifyMAC mac data :=
    if bool_decide (mac = toyTag key size data) then None
    else Some (Errorf "toy: invalid mac")
|}.

(** A primitive whose backend is out of order. *)
Definition downMAC : tink.MAC := {|
  tink.ComputeMAC data := Err (Errorf "toy: backend unavailable");
  tink.VerifyMAC mac data := Some (Errorf "toy: backend unavailable")
|}.

Definition tinkKey : Entry := {|
  KeyID := 1; Primitive := MACPrimitive (toyMAC "k" 10);
  Prefix := "T0001"; PrefixType := tinkpb.OutputPrefixType_TINK |}.

Definition tinkKey' : Entry := {|
  KeyID := 1; Primitive := MACPrimitive (toyMAC "j" 10);
  Prefix := "T0001"; PrefixType := tinkpb.OutputPrefixType_TINK |}.

Definition legacyKey : Entry := {|
  KeyID := 2; Primitive := MACPrimitive (toyMAC "l" 10);
  Prefix := "L0002"; PrefixType := tinkpb.OutputPrefixType_LEGACY |}.

Definition rawKey : Entry := {|
  KeyID := 3; Primitive := MACPrimitive (toyMAC "r" 10);
  Prefix := ""; PrefixType := tinkpb.OutputPrefixType_RAW |}.

Definition rawKey' : Entry := {|
  KeyID := 4; Primitive := MACPrimitive (toyMAC "s" 10);
  Prefix := ""; PrefixType := tinkpb.OutputPrefixType_RAW |}.

(** A RAW key whose primitive produces tags of four bytes. *)
Definition shortRawKey : Entry := {|
  KeyID := 5; Primitive := MACPrimitive (toyMAC "q" 4);
  Prefix := ""; PrefixType := tinkpb.OutputPrefixType_RAW |}.

(** A LEGACY key whose primitive produces the empty tag. *)
Definition emptyLegacyKey : Entry := {|
  KeyID := 6; Primitive := MACPrimitive (toyMAC "e" 0);
  Prefix := "L0006"; PrefixType := tinkpb.OutputPrefixType_LEGACY |}.

Definition downKey : Entry := {|
  KeyID := 7; Primitive := MACPrimitive downMAC;
  Prefix := "T0007"; PrefixType := tinkpb.OutputPrefixType_TINK |}.

(** A key whose primitive is not a MAC. *)
Definition aeadKey : Entry := {|
  KeyID := 8; Primitive := OtherPrimitive "tink.AEAD";
  Prefix := "T0008"; PrefixType := tinkpb.OutputPrefixType_TINK |}.

(** Primary [tinkKey]; a second key shares its prefix, and two RAW keys
    and a LEGACY key are kept for verification. *)
Definition rotated : PrimitiveSet := {|
  Primary := tinkKey;
  Entries := {[ "T0001" := [tinkKey'; tinkKey];
                "L0002" := [legacyKey];
                "" := [rawKey; rawKey'] ]}
|}.

Definition legacySet : PrimitiveSet := {|
  Primary := legacyKey;
  Entries := {[ "L0002" := [legacyKey]; "" := [rawKey] ]}
|}.

Definition rawSet : PrimitiveSet := {|
  Primary := rawKey';
  Entries := {[ "" := [rawKey; rawKey'] ]}
|}.

Definition shortRawSet : PrimitiveSet := {|
  Primary := shortRawKey;
  Entries := {[ "" := [shortRawKey] ]}
|}.

Definition emptyLegacySet : PrimitiveSet := {|
  Primary := emptyLegacyKey;
  Entries := {[ "L0006" := [emptyLegacyKey] ]}
|}.

Definition downSet : PrimitiveSet := {|
  Primary := downKey;
  Entries := {[ "T0007" := [downKey] ]}
|}.

Definition aeadPrimarySet : PrimitiveSet := {|
  Primary := aeadKey;
  Entries := {[ "T0008" := [aeadKey] ]}
|}.

Definition aeadEntrySet : PrimitiveSet := {|
  Primary := tinkKey;
  Entries := {[ "T0001" := [tinkKey]; "T0008" := [aeadKey] ]}
|}.

(** The flag given on the command line as
    [--enable_compute_old_legacy_mac=false]. *)
Definition gateOff : gmap string bool :=
  {[ "enable_compute_old_legacy_mac" := false ]}.

Definition hello : bytes := String.list_byte_of_string "hello".

(** ** Vocabulary of the statements *)

(** [e] is one of the entries of the set. *)
Definition InSet (ps : PrimitiveSet) (e : Entry) : Prop :=
  exists prefix entries, Entries ps !! prefix = Some entries /\ e ∈ entries.

(** The primitive of [e] has the MAC capability. *)
Definition isMAC (e : Entry) : Prop := is_Some (asMAC (Primitive e)).

#[global] Instance isMAC_dec (e : Entry) : Decision (isMAC e) :=
  is_Some_dec (asMAC (Primitive e)).

(** The primitive of [e] has the MAC capability and accepts, resp.
    rejects, the tag [mac] for [data]. *)
Definition accepts (mac data : bytes) (e : Entry) : Prop :=
  exists p, asMAC (Primitive e) = Some p /\ tink.VerifyMAC p mac data = None.

Definition rejects (mac data : bytes) (e : Entry) : Prop :=
  exists p err,
    asMAC (Primitive e) = Some p /\ tink.VerifyMAC p mac data = Some err.

(** The calls a loop of [VerifyMAC] makes when it visits [entries]. *)
Definition verifyCalls (entries : list Entry) (mac data : bytes) : list Call :=
  (fun e => VerifyMACCall e mac data) <$> entries.

(** The entries a lookup hands to its loop: no loop runs on an error. *)
Definition found (lookup : result (list Entry)) : list Entry :=
  match lookup with
  | Ok entries => entries
  | Err _ => []
  end.

(** The primitive of [e] accepts the tags it computes. *)
Definition sound (e : Entry) : Prop :=
  forall p data mac,
    asMAC (Primitive e) = Some p ->
    tink.ComputeMAC p data = Ok mac ->
    tink.VerifyMAC p mac data = None.

(** ** The public constructors *)

(** [err.Error()], the text the verb [%s] prints for an error. *)
Definition Error (err : error) : string :=
  match err with Errorf msg => msg end.

Section Factory.

(** The keyset handle and the key manager come from go/keyset and
    go/core/registry, which are not part of the sources at hand: their
    types and the method [PrimitivesWithKeyManager] of the handle are
    parameters.  The key manager [nil] is [None]. *)
Variable Handle : Type.
Variable KeyManager : Type.
Variable PrimitivesWithKeyManager :
  Handle -> option KeyManager -> result PrimitiveSet.

Definition NewWithKeyManager (h : Handle) (km : option KeyManager)
  : result wrappedMAC :=
  match PrimitivesWithKeyManager h km with
  | Err err =>
      Err (Errorf ("mac_factory: cannot obtain primitive set: " +:+ Error err))
  | Ok ps => newWrappedMAC ps
  end.

Definition New (h : Handle) : result wrappedMAC :=
  NewWithKeyManager h None.

End Factory.
Arguments NewWithKeyManager {Handle KeyManager} PrimitivesWithKeyManager h km.
Arguments New {Handle KeyManager} PrimitivesWithKeyManager h.

(** [newWrappedMAC] with the order in which [range] visits the map made
    explicit: Go leaves that order open, and [entries] lists the keys and
    values of [ps.Entries] in the order of one run. *)
Definition newWrappedMACInOrder (entries : list (string * list Entry))
  (ps : PrimitiveSet) : result wrappedMAC :=
  match asMAC (Primitive (Primary ps)) with
  | None => Err (Errorf "mac_factory: not a MAC primitive")
  | Some _ =>
      match checkEntries entries with
      | Some err => Err err
      | None => Ok {| ps := ps |}
      end
  end.

(** ** The HMAC primitive (tink.subtle.Hmac)

    The class [Hmac] that the source file carries after the Go code.  A
    promise is modelled by its outcome, [Resolved] or [Rejected]; an
    exception thrown in an [async] function is a rejection.  Sizes are
    integers: [tagSize] ranges over [Z], so that the comparisons and the
    slice are the ones of JavaScript on integral numbers.  The source
    does not check that [tagSize] is integral; a fractional size or [NaN]
    is outside this model, and every statement about the class is a
    statement about integral tag sizes. *)
Module Hmac.

Inductive Exception : Type :=
| InvalidArgumentsException (msg : string)
| DOMException (name : string).

Inductive Promise (A : Type) : Type :=
| Resolved (a : A)
| Rejected (e : Exception).
Arguments Resolved {A} a.
Arguments Rejected {A} e.

Definition MIN_TAG_SIZE_IN_BYTES : Z := 10.

Definition MIN_KEY_SIZE_IN_BYTES : Z := 16.

(** [ArrayBuffer.prototype.slice(begin, end)]: a negative index counts
    from the end, and both are clamped to the buffer. *)
Definition slice (buffer : bytes) (begin end_ : Z) : bytes :=
  let len := Z.of_nat (length buffer) in
  let first := if (begin <? 0)%Z then Z.max (len + begin) 0 else Z.min begin len in
  let final := if (end_ <? 0)%Z then Z.max (len + end_) 0 else Z.min end_ len in
  take (Z.to_nat (Z.max (final - first) 0)) (drop (Z.to_nat first) buffer).

Section Class.

(** What the class takes from the platform and from tink.subtle.Bytes,
    neither of which is part of the sources at hand: the type of Web Crypto
    keys, [window.crypto.subtle.importKey] as a function of the hash name,
    the raw key and the key length in bits (its other arguments are
    constants), [window.crypto.subtle.sign] for HMAC, and
    [Bytes.isEqual]. *)
Variable CryptoKey : Type.
Variable importKey : string -> bytes -> Z -> Promise CryptoKey.
Variable sign : CryptoKey -> bytes -> Promise bytes.
Variable isEqual : bytes -> bytes -> bool.

Record Hmac : Type := constructor {
  key_ : CryptoKey;
  tagSize_ : Z
}.

(** The [switch] of [new]: [None] is [break]. *)
Definition checkHash (hashAlgoName : string) (tagSize : Z) : option Exception :=
  if bool_decide (hashAlgoName = "SHA-1") then
    if (20 <? tagSize)%Z
    then Some (InvalidArgumentsException
                 "tag too long, must not be larger than 20 bytes")
    else None
  else if bool_decide (hashAlgoName = "SHA-256") then
    if (32 <? tagSize)%Z
    then Some (InvalidArgumentsException
                 "tag too long, must not be larger than 32 bytes")
    else None
  else if bool_decide (hashAlgoName = "SHA-512") then
    if (64 <? tagSize)%Z
    then Some (InvalidArgumentsException
                 "tag too long, must not be larger than 64 bytes")
    else None
  else Some (InvalidArgumentsException (hashAlgoName +:+ " is not supported")).

Definition new (hashAlgoName : string) (key : bytes) (tagSize : Z)
  : Promise Hmac :=
  if (tagSize <? MIN_TAG_SIZE_IN_BYTES)%Z then
    Rejected (InvalidArgumentsException
                ("tag too short, must be at least "
                 +:+ pretty MIN_TAG_SIZE_IN_BYTES +:+ " bytes"))
  else if (Z.of_nat (length key) <? MIN_KEY_SIZE_IN_BYTES)%Z then
    Rejected (InvalidArgumentsException
                ("key too short, must be at least "
                 +:+ pretty MIN_KEY_SIZE_IN_BYTES +:+ " bytes"))
  else
    match checkHash hashAlgoName tagSize with
    | Some e => Rejected e
    | None =>
        match importKey hashAlgoName key (Z.of_nat (length key) * 8) with
        | Rejected e => Rejected e
        | Resolved cryptoKey => Resolved (constructor cryptoKey tagSize)
        end
    end.

Definition computeMac (this : Hmac) (data : bytes) : Promise bytes :=
  match sign (key_ this) data with
  | Rejected e => Rejected e
  | Resolved tag => Resolved (slice tag 0 (tagSize_ this))
  end.

Definition verifyMac (this : Hmac) (tag data : bytes) : Promise bool :=
  match computeMac this data with
  | Rejected e => Rejected e
  | Resolved computedTag => Resolved (isEqual tag computedTag)
  end.

End Class.
Arguments key_ {CryptoKey} h.
Arguments tagSize_ {CryptoKey} h.
Arguments constructor {CryptoKey} key_ tagSize_.
Arguments new {CryptoKey} importKey hashAlgoName key tagSize.
Arguments computeMac {CryptoKey} sign this data.
Arguments verifyMac {CryptoKey} sign isEqual this tag data.

End Hmac.

(** A stand-in for the platform: a key is its hash name and its raw
    bytes, and a signature is as long as the digest of the hash. *)
Definition toyImportKey (hashAlgoName : string) (key : bytes) (bits : Z)
  : Hmac.Promise (string * bytes) :=
  Hmac.Resolved (hashAlgoName, key).

Definition toyDigestSize (hashAlgoName : string) : nat :=
  if bool_decide (hashAlgoName = "SHA-1") then 20
  else if bool_decide (hashAlgoName = "SHA-256") then 32
  else 64.

Definition toySign (cryptoKey : string * bytes) (data : bytes)
  : Hmac.Promise bytes :=
  Hmac.Resolved
    (take (toyDigestSize cryptoKey.1)
       (cryptoKey.2 ++ data ++ replicate (toyDigestSize cryptoKey.1) "0"%byte)).

(** A platform whose signing call rejects. *)
Definition toyDownSign (cryptoKey : string * bytes) (data : bytes)
  : Hmac.Promise bytes :=
  Hmac.Rejected (Hmac.DOMException "OperationError").

Definition toyIsEqual (a b : bytes) : bool := bool_decide (a = b).

Definition sixteen : bytes := String.list_byte_of_string "0123456789abcdef".

Section MacFactory.

(** What [VerifyMAC] imports from packages that are not part of the
    sources at hand: the constant [cryptofmt.NonRawPrefixSize] and the
    two lookup methods of [primitiveset.PrimitiveSet]. *)
Variable NonRawPrefixSize : nat.
Variable EntriesForPrefix : PrimitiveSet -> string -> result (list Entry).
Variable RawEntries : PrimitiveSet -> result (list Entry).

Definition VerifyMAC (m : wrappedMAC) (mac data : bytes) : M (option error) :=
  let prefixSize := NonRawPrefixSize in
  if bool_decide (length mac <= prefixSize) then ret (Some errInvalidMAC)
  else
    let prefix := take prefixSize mac in
    let macNoPrefix := drop prefixSize mac in
    x <- verifyEntries
           (EntriesForPrefix (ps m) (String.string_of_list_byte prefix))
           macNoPrefix data ;;
    match x with
    | Return err => ret err
    | Fallthrough =>
        y <- verifyEntries (RawEntries (ps m)) mac data ;;
        match y with
        | Return err => ret err
        | Fallthrough => ret (Some errInvalidMAC)
        end
    end.

(** The contract of the two lookups: whatever they return for [ps] is
    drawn from the entries of [ps]. *)
Definition lookupsWithinSet (ps : PrimitiveSet) : Prop :=
  (forall prefix e, e ∈ found (EntriesForPrefix ps prefix) -> InSet ps e)
  /\ (forall e, e ∈ found (RawEntries ps) -> InSet ps e).

(** The invariant of a key entry (section 3 of the specification): the
    prefix is empty for a RAW key and has the fixed size otherwise. *)
Definition prefixWellFormed (e : Entry) : Prop :=
  if tinkpb.is_RAW (PrefixType e) then Prefix e = ""
  else String.length (Prefix e) = NonRawPrefixSize.

(** The primary is one of the entries the lookups return for it: a RAW
    primary is among the RAW entries, any other primary is among the
    entries for its prefix. *)
Definition primaryRegistered (ps : PrimitiveSet) : Prop :=
  if tinkpb.is_RAW (PrefixType (Primary ps))
  then Primary ps ∈ found (RawEntries ps)
  else Primary ps ∈ found (EntriesForPrefix ps (Prefix (Primary ps))).

(** ** The writer of delegated calls *)

Lemma bind_fst {A B} (m : M A) (f : A -> M B) :
  (bind m f).1 = (f m.1).1.
Proof. destruct m as [a l]. unfold bind. simpl. by destruct (f a). Qed.

Lemma bind_snd {A B} (m : M A) (f : A -> M B) :
  (bind m f).2 = m.2 ++ (f m.1).2.
Proof. destruct m as [a l]. unfold bind. simpl. by destruct (f a). Qed.

Lemma bind_pair {A B} (a : A) (l : list Call) (f : A -> M B) :
  bind (a, l) f = ((f a).1, l ++ (f a).2).
Proof. unfold bind. by destruct (f a). Qed.

(** ** Bytes and strings *)

Lemma length_list_byte_of_string (s : string) :
  length (String.list_byte_of_string s) = String.length s.
Proof.
  unfold String.list_byte_of_string. rewrite length_map.
  induction s as [|c s IH]; simpl; [done | by rewrite IH].
Qed.

(** ** Construction *)

Lemma checkPrimitives_None (primitives : list Entry) :
  checkPrimitives primitives = None <-> Forall isMAC primitives.
Proof.
  induction primitives as [|p rest IH]; simpl.
  - split; [by constructor | done].
  - unfold isMAC at 1. destruct (asMAC (Primitive p)) as [q|] eqn:Hp.
    + rewrite IH. split.
      * intros H. constructor; [unfold isMAC; by rewrite Hp | done].
      * by inversion 1.
    + split; [done |]. inversion 1 as [|? ? Hq]; subst.
      unfold isMAC in Hq. rewrite Hp in Hq. by destruct Hq.
Qed.

Lemma checkPrimitives_Some (primitives : list Entry) (err : error) :
  checkPrimitives primitives = Some err ->
  err = Errorf "mac_factory: not an MAC primitive".
Proof.
  induction primitives as [|p rest IH]; simpl; [done |].
  destruct (asMAC (Primitive p)); [done | congruence].
Qed.

Lemma checkEntries_None (entries : list (string * list Entry)) :
  checkEntries entries = None <->
  Forall (fun kv => Forall isMAC kv.2) entries.
Proof.
  induction entries as [|[k primitives] rest IH]; simpl.
  - split; [by constructor | done].
  - destruct (checkPrimitives primitives) as [err|] eqn:Hp.
    + split; [done |]. inversion 1 as [|? ? Hq]; subst. simpl in Hq.
      apply checkPrimitives_None in Hq. congruence.
    + rewrite IH. split.
      * intros H. constructor; [by apply checkPrimitives_None | done].
      * by inversion 1.
Qed.

Lemma checkEntries_Some (entries : list (string * list Entry)) (err : error) :
  checkEntries entries = Some err ->
  err = Errorf "mac_factory: not an MAC primitive".
Proof.
  induction entries as [|[k primitives] rest IH]; simpl; [done |].
  destruct (checkPrimitives primitives) as [err'|] eqn:Hp; [|done].
  intros [= <-]. by eapply checkPrimitives_Some.
Qed.

Lemma checkEntries_map (ps : PrimitiveSet) :
  checkEntries (map_to_list (Entries ps)) = None <->
  forall e, InSet ps e -> isMAC e.
Proof.
  rewrite checkEntries_None, Forall_forall. split.
  - intros H e (k & es & Hk & He).
    specialize (H (k, es)). simpl in H.
    rewrite Forall_forall in H. apply H; [|done].
    by apply elem_of_map_to_list.
  - intros H [k es] Hkv. simpl. apply Forall_forall. intros e He.
    apply H. exists k, es. split; [|done]. by apply elem_of_map_to_list.
Qed.

(** A successful construction returns the wrapper of the set it was
    given, and every primitive of that set is a MAC. *)
Lemma newWrappedMAC_Ok (ps0 : PrimitiveSet) (w : wrappedMAC) :
  newWrappedMAC ps0 = Ok w <->
  w = {| ps := ps0 |} /\ isMAC (Primary ps0)
  /\ forall e, InSet ps0 e -> isMAC e.
Proof.
  unfold newWrappedMAC, isMAC at 1.
  destruct (asMAC (Primitive (Primary ps0))) as [p|] eqn:Hp.
  - destruct (checkEntries (map_to_list (Entries ps0))) as [err|] eqn:Hc.
    + split; [done |]. intros (_ & _ & H).
      apply checkEntries_map in H. congruence.
    + pose proof (proj1 (checkEntries_map ps0) Hc) as Hall. split.
      * intros [= <-]. eauto.
      * intros (-> & _ & _). done.
  - split; [done |]. intros (_ & [? ?] & _). done.
Qed.

(** A failed construction returns one of its two errors. *)
Lemma newWrappedMAC_Err (ps0 : PrimitiveSet) (err : error) :
  newWrappedMAC ps0 = Err err ->
  err = Errorf "mac_factory: not a MAC primitive"
  \/ err = Errorf "mac_factory: not an MAC primitive".
Proof.
  unfold newWrappedMAC.
  destruct (asMAC (Primitive (Primary ps0))); [|intros [= <-]; by left].
  destruct (checkEntries (map_to_list (Entries ps0))) as [err'|] eqn:Hc;
    [|done].
  intros [= <-]. right. by eapply checkEntries_Some.
Qed.

(** If not all entries of a set are MACs, one of them is none. *)
Lemma not_Forall_Exists_entries (ps0 : PrimitiveSet) :
  ~ (forall e, InSet ps0 e -> isMAC e) ->
  exists e, InSet ps0 e /\ ~ isMAC e.
Proof.
  intros Hnot.
  destruct (decide (Forall (fun kv : string * list Entry => Forall isMAC kv.2)
                      (map_to_list (Entries ps0)))) as [Hall|Hex].
  - destruct Hnot. by apply checkEntries_map, checkEntries_None.
  - apply not_Forall_Exists in Hex; [|apply _].
    apply Exists_exists in Hex as ([k es] & Hkv & Hbad). simpl in Hbad.
    apply not_Forall_Exists in Hbad; [|apply _].
    apply Exists_exists in Hbad as (e & He & Hbad).
    exists e. split; [|done]. exists k, es.
    split; [by apply elem_of_map_to_list | done].
Qed.

(** The order in which the map is ranged over does not show in the
    outcome of the check. *)
Lemma checkEntries_Permutation (entries entries' : list (string * list Entry)) :
  entries ≡ₚ entries' -> checkEntries entries = checkEntries entries'.
Proof.
  induction 1 as [|[k es] l l' _ IH|[k es] [k' es'] l|l l' l'' _ IH _ IH'];
    simpl.
  - done.
  - by rewrite IH.
  - destruct (checkPrimitives es') as [err'|] eqn:He',
             (checkPrimitives es) as [err|] eqn:He; try done.
    apply checkPrimitives_Some in He, He'. congruence.
  - congruence.
Qed.

(** ** The verification loops *)

Lemma verifyEntries_found (lookup : result (list Entry)) (mac data : bytes) :
  verifyEntries lookup mac data = verifyLoop (found lookup) mac data.
Proof. by destruct lookup. Qed.

Lemma accepts_or_rejects (e : Entry) (mac data : bytes) :
  isMAC e -> accepts mac data e \/ rejects mac data e.
Proof.
  intros [p Hp]. destruct (tink.VerifyMAC p mac data) as [err|] eqn:Hv.
  - right. by exists p, err.
  - left. by exists p.
Qed.

(** A loop none of whose entries accepts calls every one of them, in
    order, and runs to its end. *)
Lemma verifyLoop_rejects (entries : list Entry) (mac data : bytes) :
  Forall (rejects mac data) entries ->
  verifyLoop entries mac data = (Fallthrough, verifyCalls entries mac data).
Proof.
  induction 1 as [|e rest (p & err & Hp & Hv) _ IH]; simpl; [done |].
  rewrite Hp. unfold callVerifyMAC. rewrite bind_pair, Hv, IH. done.
Qed.

(** A loop returns success at the first entry that accepts, having
    called the entries up to and including that one. *)
Lemma verifyLoop_accepts (pre post : list Entry) (e : Entry) (mac data : bytes) :
  Forall (rejects mac data) pre ->
  accepts mac data e ->
  verifyLoop (pre ++ e :: post) mac data
  = (Return None, verifyCalls (pre ++ [e]) mac data).
Proof.
  intros Hpre (p & Hp & Hv).
  induction Hpre as [|e' rest (p' & err & Hp' & Hv') _ IH]; simpl.
  - rewrite Hp. unfold callVerifyMAC. by rewrite bind_pair, Hv.
  - rewrite Hp'. unfold callVerifyMAC. by rewrite bind_pair, Hv', IH.
Qed.

(** Over entries that all are MACs a loop ends in success or runs to its
    end: it never returns an error. *)
Lemma verifyLoop_isMAC (entries : list Entry) (mac data : bytes) :
  Forall isMAC entries ->
  (verifyLoop entries mac data).1 = Return None
  \/ (verifyLoop entries mac data).1 = Fallthrough.
Proof.
  induction 1 as [|e rest [p Hp] _ IH]; simpl; [by right |].
  rewrite Hp. unfold callVerifyMAC. rewrite bind_pair. simpl.
  destruct (tink.VerifyMAC p mac data); [done | by left].
Qed.

(** Over entries that all are MACs, a loop that visits an accepting
    entry ends in success. *)
Lemma verifyLoop_elem_of (entries : list Entry) (e : Entry) (mac data : bytes) :
  Forall isMAC entries ->
  e ∈ entries ->
  accepts mac data e ->
  (verifyLoop entries mac data).1 = Return None.
Proof.
  intros Hall He (p & Hp & Hv).
  induction Hall as [|e' rest [p' Hp'] _ IH]; simpl.
  - by apply elem_of_nil in He.
  - rewrite Hp'. unfold callVerifyMAC. rewrite bind_pair. simpl.
    destruct (tink.VerifyMAC p' mac data) as [err|] eqn:Hv'; [|done].
    apply elem_of_cons in He as [->|He]; [congruence | by apply IH].
Qed.

(** [VerifyMAC] at its length check. *)
Lemma VerifyMAC_short_floor (m : wrappedMAC) (mac data : bytes) :
  length mac <= NonRawPrefixSize ->
  VerifyMAC m mac data = (Some errInvalidMAC, []).
Proof. intros Hlen. unfold VerifyMAC. by rewrite bool_decide_true. Qed.

(** [VerifyMAC] past its length check. *)
Lemma VerifyMAC_long (m : wrappedMAC) (mac data : bytes) :
  NonRawPrefixSize < length mac ->
  VerifyMAC m mac data =
    (x <- verifyLoop
            (found (EntriesForPrefix (ps m)
               (String.string_of_list_byte (take NonRawPrefixSize mac))))
            (drop NonRawPrefixSize mac) data ;;
     match x with
     | Return err => ret err
     | Fallthrough =>
         y <- verifyLoop (found (RawEntries (ps m))) mac data ;;
         match y with
         | Return err => ret err
         | Fallthrough => ret (Some errInvalidMAC)
         end
     end).
Proof.
  intros Hlen. unfold VerifyMAC.
  rewrite bool_decide_false by lia. by rewrite !verifyEntries_found.
Qed.

(** The entries the loops of a constructed wrapper visit all are MACs. *)
Lemma constructed_lookups (ps0 : PrimitiveSet) (w : wrappedMAC) :
  newWrappedMAC ps0 = Ok w ->
  lookupsWithinSet ps0 ->
  (forall prefix, Forall isMAC (found (EntriesForPrefix (ps w) prefix)))
  /\ Forall isMAC (found (RawEntries (ps w))).
Proof.
  intros (-> & _ & Hall)%newWrappedMAC_Ok [Hpre Hraw]. simpl.
  split; [intros prefix|]; apply Forall_forall; intros e He; apply Hall; eauto.
Qed.

(** A constructed wrapper verifies to success or to [errInvalidMAC]. *)
Lemma VerifyMAC_outcomes (ps0 : PrimitiveSet) (w : wrappedMAC) (mac data : bytes) :
  newWrappedMAC ps0 = Ok w ->
  lookupsWithinSet ps0 ->
  (VerifyMAC w mac data).1 = None
  \/ (VerifyMAC w mac data).1 = Some errInvalidMAC.
Proof.
  intros Hw Hin. destruct (constructed_lookups _ _ Hw Hin) as [Hpre Hraw].
  destruct (decide (length mac <= NonRawPrefixSize)) as [Hlen|Hlen].
  - right. unfold VerifyMAC. by rewrite bool_decide_true.
  - rewrite VerifyMAC_long by lia. rewrite bind_fst.
    destruct (verifyLoop_isMAC _ (drop NonRawPrefixSize mac) data
                (Hpre (String.string_of_list_byte (take NonRawPrefixSize mac))))
      as [-> | ->]; [by left |].
    rewrite bind_fst.
    destruct (verifyLoop_isMAC _ mac data Hraw) as [-> | ->]; [by left | by right].
Qed.

(** ** Computing a tag *)

Lemma is_LEGACY_true (t : tinkpb.OutputPrefixType) :
  tinkpb.is_LEGACY t = true <-> t = tinkpb.OutputPrefixType_LEGACY.
Proof. by destruct t. Qed.

Lemma is_RAW_true (t : tinkpb.OutputPrefixType) :
  tinkpb.is_RAW t = true <-> t = tinkpb.OutputPrefixType_RAW.
Proof. by destruct t. Qed.

(** [ComputeMAC] when the gate lets the call through. *)
Lemma ComputeMAC_open (flags : gmap string bool) (m : wrappedMAC)
  (data : bytes) (p : tink.MAC) :
  asMAC (Primitive (Primary (ps m))) = Some p ->
  tinkpb.is_LEGACY (PrefixType (Primary (ps m)))
    && negb (enableComputeOldLegacyMac flags) = false ->
  ComputeMAC flags m data =
    (match tink.ComputeMAC p data with
     | Ok mac => Ok (String.list_byte_of_string (Prefix (Primary (ps m))) ++ mac)
     | Err err => Err err
     end, [ComputeMACCall (Primary (ps m)) data]).
Proof.
  intros Hp Hgate. unfold ComputeMAC. rewrite Hp, Hgate.
  unfold callComputeMAC. rewrite bind_pair.
  by destruct (tink.ComputeMAC p data).
Qed.

(** [ComputeMAC] when the gate is shut. *)
Lemma ComputeMAC_shut (flags : gmap string bool) (m : wrappedMAC)
  (data : bytes) (p : tink.MAC) :
  asMAC (Primitive (Primary (ps m))) = Some p ->
  tinkpb.is_LEGACY (PrefixType (Primary (ps m)))
    && negb (enableComputeOldLegacyMac flags) = true ->
  ComputeMAC flags m data = (Err errLegacyDisabled, []).
Proof. intros Hp Hgate. unfold ComputeMAC. by rewrite Hp, Hgate. Qed.

(** The tag [prefix ++ mac] of a primary whose primitive accepts [mac]
    verifies, once it is longer than the fixed prefix size. *)
Lemma VerifyMAC_primary_tag (ps0 : PrimitiveSet) (w : wrappedMAC)
  (p : tink.MAC) (mac data : bytes) :
  newWrappedMAC ps0 = Ok w ->
  lookupsWithinSet ps0 ->
  primaryRegistered ps0 ->
  prefixWellFormed (Primary ps0) ->
  asMAC (Primitive (Primary ps0)) = Some p ->
  tink.VerifyMAC p mac data = None ->
  NonRawPrefixSize
    < length (String.list_byte_of_string (Prefix (Primary ps0)) ++ mac) ->
  (VerifyMAC w (String.list_byte_of_string (Prefix (Primary ps0)) ++ mac)
     data).1 = None.
Proof.
  intros Hw Hin Hreg Hwf Hp Hv Hlen.
  destruct (constructed_lookups _ _ Hw Hin) as [Hpre Hraw].
  apply newWrappedMAC_Ok in Hw as (-> & _ & _). simpl in *.
  rewrite VerifyMAC_long by done. simpl. rewrite bind_fst.
  unfold primaryRegistered, prefixWellFormed in *.
  destruct (tinkpb.is_RAW (PrefixType (Primary ps0))).
  - rewrite Hwf in *. simpl in *.
    destruct (verifyLoop_isMAC _ (drop NonRawPrefixSize mac) data
                (Hpre (String.string_of_list_byte (take NonRawPrefixSize mac))))
      as [-> | ->]; [done |].
    rewrite bind_fst.
    rewrite (verifyLoop_elem_of _ (Primary ps0)); [done | done | done |].
    by exists p.
  - rewrite take_app_length', drop_app_length'
      by (by rewrite length_list_byte_of_string).
    rewrite String.string_of_list_byte_of_string.
    rewrite (verifyLoop_elem_of _ (Primary ps0)); [done | done | done |].
    by exists p.
Qed.

(** ** The properties of the specification *)

(** C1, as amended.  Round trip: take a primitive set that wraps
    successfully, whose primary is registered under its own prefix (empty
    for RAW, of the fixed non-raw size otherwise) and whose primary
    primitive accepts the tags it computes.  Whenever [ComputeMAC] succeeds
    on some data with a tag that is longer than the fixed non-raw prefix
    size, [VerifyMAC] accepts that tag for the same data, whatever the
    prefix type of the primary. *)
Theorem roundtrip_long_tag (flags : gmap string bool) (ps0 : PrimitiveSet)
  (w : wrappedMAC) (data tag : bytes) :
  newWrappedMAC ps0 = Ok w ->
  lookupsWithinSet ps0 ->
  primaryRegistered ps0 ->
  prefixWellFormed (Primary ps0) ->
  sound (Primary ps0) ->
  (ComputeMAC flags w data).1 = Ok tag ->
  NonRawPrefixSize < length tag ->
  (VerifyMAC w tag data).1 = None.
Proof.
  intros Hw Hin Hreg Hwf Hsound Hc Hlen.
  pose proof Hw as (-> & [p Hp] & _)%newWrappedMAC_Ok.
  unfold ComputeMAC in Hc. simpl in Hc. rewrite Hp in Hc.
  destruct (tinkpb.is_LEGACY (PrefixType (Primary ps0))
            && negb (enableComputeOldLegacyMac flags)); [done |].
  unfold callComputeMAC in Hc. rewrite bind_pair in Hc. simpl in Hc.
  destruct (tink.ComputeMAC p data) as [mac|err] eqn:Hmac; [|done].
  simpl in Hc. injection Hc as <-.
  eapply VerifyMAC_primary_tag; eauto.
Qed.

(** C2.  For a tag longer than the fixed non-raw prefix size, [VerifyMAC]
    of a constructed wrapper splits the tag into the prefix of that size
    and the body, and
    - every entry registered under that prefix, and every RAW entry, is a
      MAC that either accepts or rejects;
    - if an entry registered under the prefix accepts the body and the
      entries before it reject it, the call succeeds after calling exactly
      these entries, in insertion order, on the body;
    - if no entry registered under the prefix accepts the body (none is
      registered when the prefix is unknown), the RAW entries are tried in
      insertion order on the full tag, and the call succeeds at the first
      that accepts;
    - if no RAW entry accepts either, the call fails with
      [errInvalidMAC]. *)
Theorem VerifyMAC_prefix_then_raw (ps0 : PrimitiveSet) (w : wrappedMAC)
  (mac data : bytes) :
  newWrappedMAC ps0 = Ok w ->
  lookupsWithinSet ps0 ->
  NonRawPrefixSize < length mac ->
  let body := drop NonRawPrefixSize mac in
  let prefixed :=
    found (EntriesForPrefix ps0
             (String.string_of_list_byte (take NonRawPrefixSize mac))) in
  let raw := found (RawEntries ps0) in
  Forall (fun e => accepts body data e \/ rejects body data e) prefixed
  /\ Forall (fun e => accepts mac data e \/ rejects mac data e) raw
  /\ (forall pre e post,
        prefixed = pre ++ e :: post ->
        Forall (rejects body data) pre ->
        accepts body data e ->
        VerifyMAC w mac data = (None, verifyCalls (pre ++ [e]) body data))
  /\ (Forall (rejects body data) prefixed ->
      forall pre e post,
        raw = pre ++ e :: post ->
        Forall (rejects mac data) pre ->
        accepts mac data e ->
        VerifyMAC w mac data
        = (None, verifyCalls prefixed body data
                 ++ verifyCalls (pre ++ [e]) mac data))
  /\ (Forall (rejects body data) prefixed ->
      Forall (rejects mac data) raw ->
      VerifyMAC w mac data
      = (Some errInvalidMAC,
         verifyCalls prefixed body data ++ verifyCalls raw mac data)).
Proof.
  intros Hw Hin Hlen body prefixed raw.
  destruct (constructed_lookups _ _ Hw Hin) as [Hpre Hraw].
  apply newWrappedMAC_Ok in Hw as (-> & _ & _). simpl in *.
  split; [|split; [|split; [|split]]].
  - eapply Forall_impl; [apply Hpre |].
    intros e He. by apply accepts_or_rejects.
  - eapply Forall_impl; [apply Hraw |].
    intros e He. by apply accepts_or_rejects.
  - intros pre e post Heq Hrej Hacc.
    rewrite VerifyMAC_long by done. simpl. fold body. fold prefixed.
    rewrite Heq, (verifyLoop_accepts _ _ _ _ _ Hrej Hacc), bind_pair.
    simpl. by rewrite app_nil_r.
  - intros Hnone pre e post Heq Hrej Hacc.
    rewrite VerifyMAC_long by done. simpl. fold body. fold prefixed. fold raw.
    rewrite (verifyLoop_rejects _ _ _ Hnone), bind_pair.
    rewrite Heq, (verifyLoop_accepts _ _ _ _ _ Hrej Hacc), bind_pair.
    simpl. by rewrite app_nil_r.
  - intros Hnone Hnone'.
    rewrite VerifyMAC_long by done. simpl. fold body. fold prefixed. fold raw.
    rewrite (verifyLoop_rejects _ _ _ Hnone), bind_pair.
    rewrite (verifyLoop_rejects _ _ _ Hnone'), bind_pair.
    simpl. by rewrite app_nil_r.
Qed.

(** C3.  Once the capability check and the gate are passed,
    [ComputeMAC] calls the primitive of the primary once, on the data, and
    - if the primitive computes a tag, [ComputeMAC] succeeds and returns
      the bytes of the primary's prefix followed by that tag; for a RAW
      primary, whose prefix is empty, that is the primitive's tag as it
      is;
    - if the primitive fails, [ComputeMAC] returns its error unchanged.
    Conversely, every tag that [ComputeMAC] returns is the prefix of the
    primary followed by the tag its primitive computed on the data. *)
Theorem ComputeMAC_prefix_tag (flags : gmap string bool) (m : wrappedMAC)
  (data : bytes) :
  (forall p mac,
     asMAC (Primitive (Primary (ps m))) = Some p ->
     tinkpb.is_LEGACY (PrefixType (Primary (ps m)))
       && negb (enableComputeOldLegacyMac flags) = false ->
     tink.ComputeMAC p data = Ok mac ->
     ComputeMAC flags m data
     = (Ok (String.list_byte_of_string (Prefix (Primary (ps m))) ++ mac),
        [ComputeMACCall (Primary (ps m)) data])
     /\ (PrefixType (Primary (ps m)) = tinkpb.OutputPrefixType_RAW ->
         prefixWellFormed (Primary (ps m)) ->
         ComputeMAC flags m data
         = (Ok mac, [ComputeMACCall (Primary (ps m)) data])))
  /\ (forall p err,
        asMAC (Primitive (Primary (ps m))) = Some p ->
        tinkpb.is_LEGACY (PrefixType (Primary (ps m)))
          && negb (enableComputeOldLegacyMac flags) = false ->
        tink.ComputeMAC p data = Err err ->
        ComputeMAC flags m data
        = (Err err, [ComputeMACCall (Primary (ps m)) data]))
  /\ (forall tag,
        (ComputeMAC flags m data).1 = Ok tag ->
        exists p mac,
          asMAC (Primitive (Primary (ps m))) = Some p
          /\ tink.ComputeMAC p data = Ok mac
          /\ tag = String.list_byte_of_string (Prefix (Primary (ps m))) ++ mac
          /\ ComputeMAC flags m data
             = (Ok tag, [ComputeMACCall (Primary (ps m)) data])
          /\ (PrefixType (Primary (ps m)) = tinkpb.OutputPrefixType_RAW ->
              prefixWellFormed (Primary (ps m)) ->
              tag = mac)).
Proof.
  assert (PrefixType (Primary (ps m)) = tinkpb.OutputPrefixType_RAW ->
          prefixWellFormed (Primary (ps m)) ->
          forall mac,
            String.list_byte_of_string (Prefix (Primary (ps m))) ++ mac = mac)
    as Hbare.
  { intros Hraw Hwf mac. unfold prefixWellFormed in Hwf.
    rewrite Hraw in Hwf. simpl in Hwf. by rewrite Hwf. }
  split; [|split].
  - intros p mac Hp Hgate Hmac.
    rewrite (ComputeMAC_open _ _ _ _ Hp Hgate), Hmac.
    split; [done |]. intros Hraw Hwf. by rewrite Hbare.
  - intros p err Hp Hgate Herr.
    by rewrite (ComputeMAC_open _ _ _ _ Hp Hgate), Herr.
  - intros tag Htag.
    destruct (asMAC (Primitive (Primary (ps m)))) as [p|] eqn:Hp;
      [|unfold ComputeMAC in Htag; by rewrite Hp in Htag].
    destruct (tinkpb.is_LEGACY (PrefixType (Primary (ps m)))
              && negb (enableComputeOldLegacyMac flags)) eqn:Hgate;
      [by rewrite (ComputeMAC_shut _ _ _ _ Hp Hgate) in Htag |].
    rewrite (ComputeMAC_open _ _ _ _ Hp Hgate) in Htag |- *. simpl in Htag.
    destruct (tink.ComputeMAC p data) as [mac|err] eqn:Hmac; [|done].
    injection Htag as <-. exists p, mac.
    split; [done |]. split; [done |]. split; [done |]. split; [done |].
    intros Hraw Hwf. by apply Hbare.
Qed.

(** C4, as amended.  For a constructed wrapper, [ComputeMAC] stops at
    the gate, with the legacy-computation-disabled error and before any
    call to the primitive, exactly when the primary is a LEGACY key and
    the gate is disabled.  With the gate enabled and the primitive
    computing a tag, the call succeeds with the prefix followed by that
    tag; for a LEGACY primary that is registered under its prefix of the
    fixed size and whose primitive accepts the tags it computes, the
    produced tag verifies against the same keyset provided the
    primitive's tag is not empty. *)
Theorem legacy_gate (flags : gmap string bool) (ps0 : PrimitiveSet)
  (w : wrappedMAC) (data : bytes) :
  newWrappedMAC ps0 = Ok w ->
  (ComputeMAC flags w data = (Err errLegacyDisabled, [])
   <-> PrefixType (Primary ps0) = tinkpb.OutputPrefixType_LEGACY
       /\ enableComputeOldLegacyMac flags = false)
  /\ (enableComputeOldLegacyMac flags = true ->
      forall p mac,
        asMAC (Primitive (Primary ps0)) = Some p ->
        tink.ComputeMAC p data = Ok mac ->
        ComputeMAC flags w data
        = (Ok (String.list_byte_of_string (Prefix (Primary ps0)) ++ mac),
           [ComputeMACCall (Primary ps0) data])
        /\ (PrefixType (Primary ps0) = tinkpb.OutputPrefixType_LEGACY ->
            lookupsWithinSet ps0 ->
            primaryRegistered ps0 ->
            prefixWellFormed (Primary ps0) ->
            sound (Primary ps0) ->
            mac <> [] ->
            (VerifyMAC w
               (String.list_byte_of_string (Prefix (Primary ps0)) ++ mac)
               data).1 = None)).
Proof.
  intros Hw. pose proof Hw as (-> & [p Hp] & _)%newWrappedMAC_Ok.
  split; [split|].
  - intros Hc.
    destruct (tinkpb.is_LEGACY (PrefixType (Primary ps0))
              && negb (enableComputeOldLegacyMac flags)) eqn:Hgate.
    + apply andb_true_iff in Hgate as [Hl Hf].
      apply is_LEGACY_true in Hl. by apply negb_true_iff in Hf.
    + by rewrite (ComputeMAC_open flags {| ps := ps0 |} data p Hp Hgate) in Hc.
  - intros [Hl Hf]. apply (ComputeMAC_shut flags {| ps := ps0 |} data p Hp).
    simpl. by rewrite Hl, Hf.
  - intros Hon p' mac Hp' Hmac.
    assert (p' = p) as -> by congruence.
    assert (tinkpb.is_LEGACY (PrefixType (Primary ps0))
            && negb (enableComputeOldLegacyMac flags) = false) as Hgate
      by (rewrite Hon; apply andb_false_r).
    rewrite (ComputeMAC_open flags {| ps := ps0 |} data p Hp Hgate), Hmac.
    split; [done |].
    intros Hl Hin Hreg Hwf Hsound Hne.
    eapply VerifyMAC_primary_tag; eauto.
    unfold prefixWellFormed in Hwf. rewrite Hl in Hwf. simpl in Hwf.
    rewrite length_app, length_list_byte_of_string, Hwf.
    destruct mac; [done | simpl; lia].
Qed.

(** C5.  [VerifyMAC] rejects with [errInvalidMAC] every tag that is no
    longer than the fixed non-raw prefix size, whatever the primitive set
    of the wrapper holds, and without a call to any primitive. *)
Theorem VerifyMAC_short_tag (m : wrappedMAC) (mac data : bytes) :
  length mac <= NonRawPrefixSize ->
  VerifyMAC m mac data = (Some errInvalidMAC, []).
Proof. intros Hlen. unfold VerifyMAC. by rewrite bool_decide_true. Qed.

(** C6.  Whenever [VerifyMAC] of a constructed wrapper fails, the error
    it returns is [errInvalidMAC], whatever the tag and the data are and
    hence whatever made the call fail. *)
Theorem VerifyMAC_error_uniform (ps0 : PrimitiveSet) (w : wrappedMAC)
  (mac data : bytes) (err : error) :
  newWrappedMAC ps0 = Ok w ->
  lookupsWithinSet ps0 ->
  (VerifyMAC w mac data).1 = Some err ->
  err = errInvalidMAC.
Proof.
  intros Hw Hin Herr.
  destruct (VerifyMAC_outcomes _ _ mac data Hw Hin) as [H|H]; congruence.
Qed.

(** C7.  [newWrappedMAC] fails with an error if the primitive of the
    primary entry, or of any entry of the set, is not a MAC; if the
    primitives of the primary and of all entries are MACs, it succeeds and
    returns the wrapper of the set it was given. *)
Theorem newWrappedMAC_capability (ps0 : PrimitiveSet) :
  ((~ isMAC (Primary ps0) \/ exists e, InSet ps0 e /\ ~ isMAC e) ->
   exists err,
     newWrappedMAC ps0 = Err err
     /\ (err = Errorf "mac_factory: not a MAC primitive"
         \/ err = Errorf "mac_factory: not an MAC primitive"))
  /\ (isMAC (Primary ps0) ->
      (forall e, InSet ps0 e -> isMAC e) ->
      newWrappedMAC ps0 = Ok {| ps := ps0 |}).
Proof.
  split.
  - intros Hbad. destruct (newWrappedMAC ps0) as [w|err] eqn:Hw.
    + apply newWrappedMAC_Ok in Hw as (_ & Hprimary & Hall).
      destruct Hbad as [Hbad | (e & He & Hbad)]; [done | by apply Hall in He].
    + exists err. split; [done |]. by apply (newWrappedMAC_Err ps0).
  - intros Hprimary Hall. by apply newWrappedMAC_Ok.
Qed.

(** The capability check of [ComputeMAC] fails exactly when the
    primitive of the primary is not a MAC. *)
Lemma ComputeMAC_recheck (flags : gmap string bool) (m : wrappedMAC)
  (data : bytes) :
  ComputeMAC flags m data
  = (Err (Errorf "mac_factory: not a MAC primitive"), [])
  <-> ~ isMAC (Primary (ps m)).
Proof.
  unfold isMAC.
  destruct (asMAC (Primitive (Primary (ps m)))) as [p|] eqn:Hp.
  - split; [|intros []; eauto]. intros Hc.
    destruct (tinkpb.is_LEGACY (PrefixType (Primary (ps m)))
              && negb (enableComputeOldLegacyMac flags)) eqn:Hgate.
    + by rewrite (ComputeMAC_shut _ _ _ _ Hp Hgate) in Hc.
    + by rewrite (ComputeMAC_open _ _ _ _ Hp Hgate) in Hc.
  - split; [by intros _ [? ?] |]. intros _. unfold ComputeMAC. by rewrite Hp.
Qed.

(** The capability check of a loop of [VerifyMAC] fails only at an
    entry whose primitive is not a MAC. *)
Lemma verifyLoop_recheck (entries : list Entry) (mac data : bytes) (err : error) :
  (verifyLoop entries mac data).1 = Return (Some err) ->
  err = Errorf "mac_factory: not an MAC primitive"
  /\ exists e, e ∈ entries /\ ~ isMAC e.
Proof.
  induction entries as [|e rest IH]; simpl; [done |].
  destruct (asMAC (Primitive e)) as [p|] eqn:Hp.
  - unfold callVerifyMAC. rewrite bind_pair. simpl.
    destruct (tink.VerifyMAC p mac data); [|done].
    intros (-> & e' & He' & Hbad)%IH. split; [done |].
    exists e'. split; [by apply elem_of_cons; right | done].
  - intros [= <-]. split; [done |]. exists e.
    split; [by apply elem_of_cons; left |].
    unfold isMAC. rewrite Hp. by intros [? ?].
Qed.

(** C8.  For a wrapper that construction returned, the type assertions
    that [ComputeMAC] and the two loops of [VerifyMAC] repeat on every
    call succeed: the primitive of the primary and of every entry the
    loops visit is a MAC, so [ComputeMAC] never leaves through its "not a
    MAC primitive" branch and [VerifyMAC] never returns the "not an MAC
    primitive" error of its loops. *)
Theorem capability_rechecks_unreachable (ps0 : PrimitiveSet) (w : wrappedMAC) :
  newWrappedMAC ps0 = Ok w ->
  lookupsWithinSet ps0 ->
  isMAC (Primary (ps w))
  /\ (forall prefix, Forall isMAC (found (EntriesForPrefix (ps w) prefix)))
  /\ Forall isMAC (found (RawEntries (ps w)))
  /\ (forall flags data,
        ComputeMAC flags w data
        <> (Err (Errorf "mac_factory: not a MAC primitive"), []))
  /\ (forall mac data,
        (VerifyMAC w mac data).1
        <> Some (Errorf "mac_factory: not an MAC primitive")).
Proof.
  intros Hw Hin. destruct (constructed_lookups _ _ Hw Hin) as [Hpre Hraw].
  pose proof Hw as (-> & Hprimary & _)%newWrappedMAC_Ok.
  split; [done |]. split; [done |]. split; [done |]. split.
  - intros flags data Hc. by apply ComputeMAC_recheck in Hc.
  - intros mac data Hv.
    destruct (VerifyMAC_outcomes _ _ mac data Hw Hin) as [H|H];
      rewrite H in Hv; discriminate.
Qed.

(** C9.  The flag [enable_compute_old_legacy_mac] is true when the
    configuration does not set it, and with that configuration
    [ComputeMAC] of a constructed wrapper with a LEGACY primary does not
    stop at the gate: it calls the primitive of the primary, returns the
    prefix followed by the primitive's tag if the primitive computes one,
    and returns the primitive's error if it fails. *)
Theorem legacy_gate_default (ps0 : PrimitiveSet) (w : wrappedMAC)
  (data : bytes) :
  newWrappedMAC ps0 = Ok w ->
  PrefixType (Primary ps0) = tinkpb.OutputPrefixType_LEGACY ->
  enableComputeOldLegacyMac ∅ = true
  /\ (exists p,
        asMAC (Primitive (Primary ps0)) = Some p
        /\ ComputeMAC ∅ w data
           = (match tink.ComputeMAC p data with
              | Ok mac =>
                  Ok (String.list_byte_of_string (Prefix (Primary ps0)) ++ mac)
              | Err err => Err err
              end, [ComputeMACCall (Primary ps0) data]))
  /\ ComputeMAC ∅ w data <> (Err errLegacyDisabled, [])
  /\ (ComputeMAC ∅ w data).2 = [ComputeMACCall (Primary ps0) data].
Proof.
  intros (-> & [p Hp] & _)%newWrappedMAC_Ok Hl.
  assert (tinkpb.is_LEGACY (PrefixType (Primary ps0))
          && negb (enableComputeOldLegacyMac ∅) = false) as Hgate
    by apply andb_false_r.
  rewrite (ComputeMAC_open ∅ {| ps := ps0 |} data p Hp Hgate).
  split; [done |]. split; [by exists p |]. split; [|done]. by intros [=].
Qed.

(** C10.  With the gate disabled, [ComputeMAC] of a constructed wrapper
    with a LEGACY primary returns the gate error and its log of delegated
    calls is empty: the primitive of the primary is not invoked. *)
Theorem legacy_gate_shut_no_call (flags : gmap string bool)
  (ps0 : PrimitiveSet) (w : wrappedMAC) (data : bytes) :
  newWrappedMAC ps0 = Ok w ->
  PrefixType (Primary ps0) = tinkpb.OutputPrefixType_LEGACY ->
  enableComputeOldLegacyMac flags = false ->
  ComputeMAC flags w data = (Err errLegacyDisabled, []).
Proof.
  intros (-> & [p Hp] & _)%newWrappedMAC_Ok Hl Hoff.
  apply (ComputeMAC_shut flags {| ps := ps0 |} data p Hp).
  simpl. by rewrite Hl, Hoff.
Qed.

(** ** Further properties of the wrapper *)

(** A loop that returns success has met an entry that accepts. *)
Lemma verifyLoop_Return_None (entries : list Entry) (mac data : bytes) :
  (verifyLoop entries mac data).1 = Return None ->
  exists e, e ∈ entries /\ accepts mac data e.
Proof.
  induction entries as [|e rest IH]; simpl; [done |].
  destruct (asMAC (Primitive e)) as [p|] eqn:Hp; [|done].
  unfold callVerifyMAC. rewrite bind_pair. simpl.
  destruct (tink.VerifyMAC p mac data) as [err|] eqn:Hv.
  - intros (e' & He' & Hacc)%IH. exists e'.
    split; [by apply elem_of_cons; right | done].
  - intros _. exists e. split; [by apply elem_of_cons; left | by exists p].
Qed.

(** The calls of a loop are verifications by the entries it was given,
    taken from the front and in order. *)
Lemma verifyLoop_calls (entries : list Entry) (mac data : bytes) :
  exists k, (verifyLoop entries mac data).2
            = verifyCalls (take k entries) mac data.
Proof.
  induction entries as [|e rest [k IH]]; simpl; [by exists 0 |].
  destruct (asMAC (Primitive e)) as [p|]; [|by exists 0].
  unfold callVerifyMAC. rewrite bind_pair. simpl.
  destruct (tink.VerifyMAC p mac data).
  - exists (S k). simpl. by rewrite IH.
  - by exists 1.
Qed.

(** The two loops in a row, over entries that all are MACs: if an entry
    of the first list accepts the tag of the first loop, or an entry of
    the second list accepts the tag of the second loop, the outcome is
    success. *)
Lemma loops_candidate (first second : list Entry) (e : Entry)
  (body tag data : bytes) :
  Forall isMAC first ->
  Forall isMAC second ->
  (e ∈ first /\ accepts body data e) \/ (e ∈ second /\ accepts tag data e) ->
  (x <- verifyLoop first body data ;;
   match x with
   | Return err => ret err
   | Fallthrough =>
       y <- verifyLoop second tag data ;;
       match y with
       | Return err => ret err
       | Fallthrough => ret (Some errInvalidMAC)
       end
   end).1 = None.
Proof.
  intros Hfirst Hsecond Hcand. rewrite bind_fst.
  destruct Hcand as [[He Hacc] | [He Hacc]].
  - by rewrite (verifyLoop_elem_of _ e).
  - destruct (verifyLoop_isMAC _ body data Hfirst) as [-> | ->]; [done |].
    rewrite bind_fst. by rewrite (verifyLoop_elem_of _ e).
Qed.

(** X1.  [VerifyMAC] never accepts on its own account: when it returns
    success, for any wrapper, the tag is longer than the fixed non-raw
    prefix size and the primitive of a key accepted it, either a key
    registered under the first bytes of the tag, for the rest of the tag,
    or a RAW key, for the whole tag. *)
Theorem VerifyMAC_accept_sound (m : wrappedMAC) (mac data : bytes) :
  (VerifyMAC m mac data).1 = None ->
  NonRawPrefixSize < length mac
  /\ ((exists e,
         e ∈ found (EntriesForPrefix (ps m)
                      (String.string_of_list_byte (take NonRawPrefixSize mac)))
         /\ accepts (drop NonRawPrefixSize mac) data e)
      \/ (exists e, e ∈ found (RawEntries (ps m)) /\ accepts mac data e)).
Proof.
  destruct (decide (length mac <= NonRawPrefixSize)) as [Hlen|Hlen].
  - by rewrite VerifyMAC_short_floor.
  - rewrite VerifyMAC_long by lia. rewrite bind_fst. intros Hok.
    split; [lia |].
    destruct (verifyLoop _ (drop NonRawPrefixSize mac) data).1
      as [err|] eqn:Hfirst.
    + simpl in Hok. subst err. left. by apply verifyLoop_Return_None.
    + rewrite bind_fst in Hok.
      destruct (verifyLoop _ mac data).1 as [err|] eqn:Hsecond; [|done].
      simpl in Hok. subst err. right. by apply verifyLoop_Return_None.
Qed.

(** X2.  A constructed wrapper accepts every tag that a candidate key
    accepts: a key registered under the first bytes of the tag that
    accepts the rest of it, or a RAW key that accepts the whole tag, and
    not only the primary. *)
Theorem VerifyMAC_accept_complete (ps0 : PrimitiveSet) (w : wrappedMAC)
  (e : Entry) (tag data : bytes) :
  newWrappedMAC ps0 = Ok w ->
  lookupsWithinSet ps0 ->
  NonRawPrefixSize < length tag ->
  (e ∈ found (EntriesForPrefix ps0
                (String.string_of_list_byte (take NonRawPrefixSize tag)))
   /\ accepts (drop NonRawPrefixSize tag) data e)
  \/ (e ∈ found (RawEntries ps0) /\ accepts tag data e) ->
  (VerifyMAC w tag data).1 = None.
Proof.
  intros Hw Hin Hlen Hcand.
  destruct (constructed_lookups _ _ Hw Hin) as [Hpre Hraw].
  apply newWrappedMAC_Ok in Hw as (-> & _ & _). simpl in *.
  rewrite VerifyMAC_long by done. simpl.
  by apply (loops_candidate _ _ e).
Qed.

(** X3.  Rotation: a tag computed by the wrapper of one primitive set is
    accepted by the wrapper of any other set that still holds the key of
    the first one's primary, registered under its prefix (among the RAW
    entries for a RAW key), as long as the key's primitive accepts the
    tags it computes and the tag is longer than the fixed non-raw prefix
    size. *)
Theorem rotation_safety (flags : gmap string bool)
  (old new : PrimitiveSet) (w_old w_new : wrappedMAC) (data tag : bytes) :
  newWrappedMAC old = Ok w_old ->
  newWrappedMAC new = Ok w_new ->
  lookupsWithinSet new ->
  prefixWellFormed (Primary old) ->
  sound (Primary old) ->
  (if tinkpb.is_RAW (PrefixType (Primary old))
   then Primary old ∈ found (RawEntries new)
   else Primary old ∈ found (EntriesForPrefix new (Prefix (Primary old)))) ->
  (ComputeMAC flags w_old data).1 = Ok tag ->
  NonRawPrefixSize < length tag ->
  (VerifyMAC w_new tag data).1 = None.
Proof.
  intros Hold Hnew Hin Hwf Hsound Hreg Hc Hlen.
  apply newWrappedMAC_Ok in Hold as (-> & [p Hp] & _).
  unfold ComputeMAC in Hc. simpl in Hc. rewrite Hp in Hc.
  destruct (tinkpb.is_LEGACY (PrefixType (Primary old))
            && negb (enableComputeOldLegacyMac flags)); [done |].
  unfold callComputeMAC in Hc. rewrite bind_pair in Hc. simpl in Hc.
  destruct (tink.ComputeMAC p data) as [mac|err] eqn:Hmac; [|done].
  simpl in Hc. injection Hc as <-.
  assert (accepts mac data (Primary old)) as Hacc
    by (exists p; split; [done | by apply (Hsound p)]).
  destruct (constructed_lookups _ _ Hnew Hin) as [Hpre Hraw].
  apply newWrappedMAC_Ok in Hnew as (-> & _ & _). simpl in *.
  rewrite VerifyMAC_long by done. simpl.
  apply (loops_candidate _ _ (Primary old)); [done | done |].
  unfold prefixWellFormed in Hwf.
  destruct (tinkpb.is_RAW (PrefixType (Primary old))).
  - right. rewrite Hwf. by split.
  - left. rewrite take_app_length', drop_app_length'
      by (by rewrite length_list_byte_of_string).
    by rewrite String.string_of_list_byte_of_string.
Qed.

(** X4.  The calls of [VerifyMAC], for any wrapper and any tag, are
    verifications only: first by entries registered under the first bytes
    of the tag, from the front of their list and on the rest of the tag,
    then by RAW entries, from the front of their list and on the whole
    tag.  No key registered under another prefix is consulted, and no tag
    is computed. *)
Theorem VerifyMAC_calls (m : wrappedMAC) (mac data : bytes) :
  exists k1 k2,
    (VerifyMAC m mac data).2
    = verifyCalls
        (take k1 (found (EntriesForPrefix (ps m)
                           (String.string_of_list_byte
                              (take NonRawPrefixSize mac)))))
        (drop NonRawPrefixSize mac) data
      ++ verifyCalls (take k2 (found (RawEntries (ps m)))) mac data.
Proof.
  destruct (decide (length mac <= NonRawPrefixSize)) as [Hlen|Hlen].
  - exists 0, 0. by rewrite VerifyMAC_short_floor.
  - rewrite VerifyMAC_long by lia. rewrite bind_snd.
    destruct (verifyLoop_calls
                (found (EntriesForPrefix (ps m)
                          (String.string_of_list_byte
                             (take NonRawPrefixSize mac))))
                (drop NonRawPrefixSize mac) data) as [k1 ->].
    destruct (verifyLoop _ (drop NonRawPrefixSize mac) data).1.
    + exists k1, 0. done.
    + rewrite bind_snd.
      destruct (verifyLoop_calls (found (RawEntries (ps m))) mac data)
        as [k2 ->].
      exists k1, k2.
      destruct (verifyLoop _ mac data).1; simpl; by rewrite app_nil_r.
Qed.

(** X5.  The flag matters to LEGACY primaries only: under a primary of
    any other prefix type [ComputeMAC] returns the same result and makes
    the same calls whatever the flags are. *)
Theorem ComputeMAC_flags_non_legacy (flags flags' : gmap string bool)
  (m : wrappedMAC) (data : bytes) :
  PrefixType (Primary (ps m)) <> tinkpb.OutputPrefixType_LEGACY ->
  ComputeMAC flags m data = ComputeMAC flags' m data.
Proof.
  intros Hl. unfold ComputeMAC.
  destruct (tinkpb.is_LEGACY (PrefixType (Primary (ps m)))) eqn:Hlegacy;
    [by apply is_LEGACY_true in Hlegacy | done].
Qed.

(** X6.  The split that [VerifyMAC] makes undoes the framing that
    [ComputeMAC] applies: under a primary that is not RAW and whose prefix
    has the fixed size, the first bytes of a computed tag are the prefix
    of the primary and the rest is the tag its primitive computed. *)
Theorem ComputeMAC_tag_splits (flags : gmap string bool) (m : wrappedMAC)
  (data tag : bytes) :
  prefixWellFormed (Primary (ps m)) ->
  PrefixType (Primary (ps m)) <> tinkpb.OutputPrefixType_RAW ->
  (ComputeMAC flags m data).1 = Ok tag ->
  String.string_of_list_byte (take NonRawPrefixSize tag)
  = Prefix (Primary (ps m))
  /\ exists p,
       asMAC (Primitive (Primary (ps m))) = Some p
       /\ tink.ComputeMAC p data = Ok (drop NonRawPrefixSize tag).
Proof.
  intros Hwf Hraw Hc. unfold prefixWellFormed in Hwf.
  destruct (tinkpb.is_RAW (PrefixType (Primary (ps m)))) eqn:Hr;
    [by apply is_RAW_true in Hr |].
  unfold ComputeMAC in Hc.
  destruct (asMAC (Primitive (Primary (ps m)))) as [p|]; [|done].
  destruct (tinkpb.is_LEGACY (PrefixType (Primary (ps m)))
            && negb (enableComputeOldLegacyMac flags)); [done |].
  unfold callComputeMAC in Hc. rewrite bind_pair in Hc. simpl in Hc.
  destruct (tink.ComputeMAC p data) as [mac|err] eqn:Hmac; [|done].
  simpl in Hc. injection Hc as <-.
  rewrite take_app_length', drop_app_length'
    by (by rewrite length_list_byte_of_string).
  split; [apply String.string_of_list_byte_of_string | by exists p].
Qed.

End MacFactory.

(** ** The lookups of the specification *)

(** The lookups modelled from the specification keep the contract. *)
Lemma model_lookupsWithinSet (ps0 : PrimitiveSet) :
  lookupsWithinSet lookupByPrefix rawEntries ps0.
Proof.
  assert (forall prefix e,
            e ∈ found (lookupByPrefix ps0 prefix) -> InSet ps0 e) as H.
  { intros prefix e. unfold lookupByPrefix.
    destruct (Entries ps0 !! prefix) as [entries|] eqn:Hl; simpl.
    - intros He. by exists prefix, entries.
    - by intros ?%elem_of_nil. }
  split; [done |]. intros e. apply H.
Qed.

(** The toy MAC accepts the tags it computes. *)
Lemma toyMAC_sound (e : Entry) (key : byte) (size : nat) :
  Primitive e = MACPrimitive (toyMAC key size) -> sound e.
Proof.
  intros He p data mac. rewrite He. simpl. intros [= <-] [= <-]. simpl.
  by rewrite bool_decide_true.
Qed.

(** ** The properties on the sample keysets

    Throughout, the fixed non-raw prefix size is 5 (a version byte and a
    key identifier of four bytes) and the lookups are the ones of the
    specification. *)

(** Membership of the primary among the entries of its prefix, by running
    the lookup. *)
Ltac registered := vm_compute; repeat constructor.

Lemma rotated_registered : primaryRegistered lookupByPrefix rawEntries rotated.
Proof. registered. Qed.

Lemma legacySet_registered :
  primaryRegistered lookupByPrefix rawEntries legacySet.
Proof. registered. Qed.

Lemma rawSet_registered : primaryRegistered lookupByPrefix rawEntries rawSet.
Proof. registered. Qed.

Lemma shortRawSet_registered :
  primaryRegistered lookupByPrefix rawEntries shortRawSet.
Proof. registered. Qed.

Lemma emptyLegacySet_registered :
  primaryRegistered lookupByPrefix rawEntries emptyLegacySet.
Proof. registered. Qed.

(** The round trip under a TINK, a LEGACY and a RAW primary. *)
Lemma roundtrip_long_tag_witness :
  (VerifyMAC 5 lookupByPrefix rawEntries {| ps := rotated |}
     (String.list_byte_of_string "T0001khellokkkk") hello).1 = None
  /\ (VerifyMAC 5 lookupByPrefix rawEntries {| ps := legacySet |}
        (String.list_byte_of_string "L0002lhellollll") hello).1 = None
  /\ (VerifyMAC 5 lookupByPrefix rawEntries {| ps := rawSet |}
        (String.list_byte_of_string "shellossss") hello).1 = None.
Proof.
  split; [|split].
  - apply (roundtrip_long_tag 5 lookupByPrefix rawEntries ∅ rotated).
    + reflexivity.
    + apply model_lookupsWithinSet.
    + apply rotated_registered.
    + reflexivity.
    + by apply (toyMAC_sound _ "k" 10).
    + reflexivity.
    + simpl. lia.
  - apply (roundtrip_long_tag 5 lookupByPrefix rawEntries ∅ legacySet).
    + reflexivity.
    + apply model_lookupsWithinSet.
    + apply legacySet_registered.
    + reflexivity.
    + by apply (toyMAC_sound _ "l" 10).
    + reflexivity.
    + simpl. lia.
  - apply (roundtrip_long_tag 5 lookupByPrefix rawEntries ∅ rawSet).
    + reflexivity.
    + apply model_lookupsWithinSet.
    + apply rawSet_registered.
    + reflexivity.
    + by apply (toyMAC_sound _ "s" 10).
    + reflexivity.
    + simpl. lia.
Defined.

(** C1 fails as stated: the RAW primary of [shortRawSet] computes its
    tag of four bytes, and the wrapper that computed that tag rejects it
    at the length check. *)
Lemma roundtrip_short_raw_tag :
  newWrappedMAC shortRawSet = Ok {| ps := shortRawSet |}
  /\ lookupsWithinSet lookupByPrefix rawEntries shortRawSet
  /\ primaryRegistered lookupByPrefix rawEntries shortRawSet
  /\ prefixWellFormed 5 (Primary shortRawSet)
  /\ sound (Primary shortRawSet)
  /\ ComputeMAC ∅ {| ps := shortRawSet |} hello
     = (Ok (String.list_byte_of_string "qhel"),
        [ComputeMACCall shortRawKey hello])
  /\ VerifyMAC 5 lookupByPrefix rawEntries {| ps := shortRawSet |}
       (String.list_byte_of_string "qhel") hello
     = (Some errInvalidMAC, []).
Proof.
  split; [reflexivity |].
  split; [apply model_lookupsWithinSet |].
  split; [apply shortRawSet_registered |].
  split; [reflexivity |].
  split; [by apply (toyMAC_sound _ "q" 4) |].
  split; reflexivity.
Qed.

(** On [rotated], two keys share the prefix [T0001]: a tag of the second
    one is verified by calling the first, which rejects the body, and then
    the second, which accepts it; a tag of the second RAW key has an
    unknown prefix and is verified by the RAW entries, on the full tag; a
    tag of no key is rejected after all of them have been tried. *)
Lemma VerifyMAC_prefix_then_raw_witness :
  VerifyMAC 5 lookupByPrefix rawEntries {| ps := rotated |}
    (String.list_byte_of_string "T0001khellokkkk") hello
  = (None,
     verifyCalls [tinkKey'; tinkKey]
       (String.list_byte_of_string "khellokkkk") hello)
  /\ VerifyMAC 5 lookupByPrefix rawEntries {| ps := rotated |}
       (String.list_byte_of_string "shellossss") hello
     = (None,
        verifyCalls [rawKey; rawKey']
          (String.list_byte_of_string "shellossss") hello)
  /\ VerifyMAC 5 lookupByPrefix rawEntries {| ps := rotated |}
       (String.list_byte_of_string "T0001xhellokkkk") hello
     = (Some errInvalidMAC,
        verifyCalls [tinkKey'; tinkKey]
          (String.list_byte_of_string "xhellokkkk") hello
        ++ verifyCalls [rawKey; rawKey']
             (String.list_byte_of_string "T0001xhellokkkk") hello).
Proof.
  assert (forall (key : byte) (size : nat) (e : Entry) (mac : bytes),
            Primitive e = MACPrimitive (toyMAC key size) ->
            mac <> toyTag key size hello ->
            rejects mac hello e) as Hrej.
  { intros key size e mac He Hne. eexists _, _. rewrite He.
    split; [reflexivity |]. simpl. by rewrite bool_decide_false. }
  assert (forall (key : byte) (size : nat) (e : Entry),
            Primitive e = MACPrimitive (toyMAC key size) ->
            accepts (toyTag key size hello) hello e) as Hacc.
  { intros key size e He. eexists. rewrite He.
    split; [reflexivity |]. simpl. by rewrite bool_decide_true. }
  split; [|split].
  - destruct (VerifyMAC_prefix_then_raw 5 lookupByPrefix rawEntries rotated
                {| ps := rotated |}
                (String.list_byte_of_string "T0001khellokkkk") hello)
      as (_ & _ & H & _).
    + reflexivity.
    + apply model_lookupsWithinSet.
    + simpl. lia.
    + apply (H [tinkKey'] tinkKey []).
      * reflexivity.
      * repeat constructor. by apply (Hrej "j"%byte 10).
      * by apply (Hacc "k"%byte 10).
  - destruct (VerifyMAC_prefix_then_raw 5 lookupByPrefix rawEntries rotated
                {| ps := rotated |}
                (String.list_byte_of_string "shellossss") hello)
      as (_ & _ & _ & H & _).
    + reflexivity.
    + apply model_lookupsWithinSet.
    + simpl. lia.
    + apply (H (Forall_nil_2 _) [rawKey] rawKey' []).
      * reflexivity.
      * repeat constructor. by apply (Hrej "r"%byte 10).
      * by apply (Hacc "s"%byte 10).
  - destruct (VerifyMAC_prefix_then_raw 5 lookupByPrefix rawEntries rotated
                {| ps := rotated |}
                (String.list_byte_of_string "T0001xhellokkkk") hello)
      as (_ & _ & _ & _ & H).
    + reflexivity.
    + apply model_lookupsWithinSet.
    + simpl. lia.
    + apply H.
      * repeat constructor;
          [by apply (Hrej "j"%byte 10) | by apply (Hrej "k"%byte 10)].
      * repeat constructor;
          [by apply (Hrej "r"%byte 10) | by apply (Hrej "s"%byte 10)].
Defined.

(** [rotated] computes the prefix of its primary followed by the toy
    tag; [rawSet] computes the bare toy tag; [downSet] hands on the error
    of its primitive. *)
Lemma ComputeMAC_prefix_tag_witness :
  ComputeMAC ∅ {| ps := rotated |} hello
  = (Ok (String.list_byte_of_string "T0001khellokkkk"),
     [ComputeMACCall tinkKey hello])
  /\ ComputeMAC ∅ {| ps := rawSet |} hello
     = (Ok (String.list_byte_of_string "shellossss"),
        [ComputeMACCall rawKey' hello])
  /\ ComputeMAC ∅ {| ps := downSet |} hello
     = (Err (Errorf "toy: backend unavailable"),
        [ComputeMACCall downKey hello])
  /\ (exists p mac,
        asMAC (Primitive (Primary rotated)) = Some p
        /\ tink.ComputeMAC p hello = Ok mac
        /\ String.list_byte_of_string "T0001khellokkkk"
           = String.list_byte_of_string "T0001" ++ mac
        /\ ComputeMAC ∅ {| ps := rotated |} hello
           = (Ok (String.list_byte_of_string "T0001khellokkkk"),
              [ComputeMACCall tinkKey hello])
        /\ (PrefixType (Primary rotated) = tinkpb.OutputPrefixType_RAW ->
            prefixWellFormed 5 (Primary rotated) ->
            String.list_byte_of_string "T0001khellokkkk" = mac)).
Proof.
  split; [|split; [|split]].
  - apply (proj1 (ComputeMAC_prefix_tag 5 ∅ {| ps := rotated |} hello)
             (toyMAC "k" 10) (toyTag "k" 10 hello)); reflexivity.
  - apply (proj1 (ComputeMAC_prefix_tag 5 ∅ {| ps := rawSet |} hello)
             (toyMAC "s" 10) (toyTag "s" 10 hello)); reflexivity.
  - apply (proj1 (proj2 (ComputeMAC_prefix_tag 5 ∅ {| ps := downSet |} hello))
             downMAC); reflexivity.
  - apply (proj2 (proj2 (ComputeMAC_prefix_tag 5 ∅ {| ps := rotated |} hello))).
    reflexivity.
Defined.

(** On [legacySet] the gate decides: shut, [ComputeMAC] returns the gate
    error; open, it returns a tag that verifies. *)
Lemma legacy_gate_witness :
  ComputeMAC gateOff {| ps := legacySet |} hello = (Err errLegacyDisabled, [])
  /\ ComputeMAC ∅ {| ps := legacySet |} hello
     = (Ok (String.list_byte_of_string "L0002lhellollll"),
        [ComputeMACCall legacyKey hello])
  /\ (VerifyMAC 5 lookupByPrefix rawEntries {| ps := legacySet |}
        (String.list_byte_of_string "L0002lhellollll") hello).1 = None.
Proof.
  split.
  - apply (legacy_gate 5 lookupByPrefix rawEntries gateOff legacySet);
      [reflexivity |]. split; reflexivity.
  - destruct (legacy_gate 5 lookupByPrefix rawEntries ∅ legacySet
                {| ps := legacySet |} hello eq_refl) as [_ H].
    destruct (H eq_refl (toyMAC "l" 10) (toyTag "l" 10 hello)
                eq_refl eq_refl) as [Hc Hv].
    split; [exact Hc |]. apply Hv.
    + reflexivity.
    + apply model_lookupsWithinSet.
    + apply legacySet_registered.
    + reflexivity.
    + by apply (toyMAC_sound _ "l" 10).
    + discriminate.
Defined.

(** C4 fails as stated: with the gate open, the LEGACY primary of
    [emptyLegacySet] computes the empty tag, [ComputeMAC] succeeds with the
    bare prefix, and the same wrapper rejects that tag at the length
    check. *)
Lemma legacy_gate_open_empty_tag :
  newWrappedMAC emptyLegacySet = Ok {| ps := emptyLegacySet |}
  /\ PrefixType (Primary emptyLegacySet) = tinkpb.OutputPrefixType_LEGACY
  /\ enableComputeOldLegacyMac ∅ = true
  /\ lookupsWithinSet lookupByPrefix rawEntries emptyLegacySet
  /\ primaryRegistered lookupByPrefix rawEntries emptyLegacySet
  /\ prefixWellFormed 5 (Primary emptyLegacySet)
  /\ sound (Primary emptyLegacySet)
  /\ tink.ComputeMAC (toyMAC "e" 0) hello = Ok []
  /\ ComputeMAC ∅ {| ps := emptyLegacySet |} hello
     = (Ok (String.list_byte_of_string "L0006"),
        [ComputeMACCall emptyLegacyKey hello])
  /\ VerifyMAC 5 lookupByPrefix rawEntries {| ps := emptyLegacySet |}
       (String.list_byte_of_string "L0006") hello
     = (Some errInvalidMAC, []).
Proof.
  split; [reflexivity |]. split; [reflexivity |]. split; [reflexivity |].
  split; [apply model_lookupsWithinSet |].
  split; [apply emptyLegacySet_registered |].
  split; [reflexivity |].
  split; [by apply (toyMAC_sound _ "e" 0) |].
  split; [reflexivity |].
  split; reflexivity.
Qed.

(** A tag of five bytes is rejected by a keyset of RAW keys only and by
    a keyset with prefixed keys, and no primitive is called. *)
Lemma VerifyMAC_short_tag_witness :
  VerifyMAC 5 lookupByPrefix rawEntries {| ps := rawSet |}
    (String.list_byte_of_string "shell") hello
  = (Some errInvalidMAC, [])
  /\ VerifyMAC 5 lookupByPrefix rawEntries {| ps := rotated |}
       (String.list_byte_of_string "T0001") hello
     = (Some errInvalidMAC, []).
Proof.
  split; apply VerifyMAC_short_tag; simpl; lia.
Defined.

(** The four ways to fail on [rotated]: a tag that is too short, a tag
    with an unknown prefix, a tag with a known prefix and a corrupted
    body, and a tag with the prefix of a key of another keyset whose body
    no key accepts. *)
Lemma VerifyMAC_error_uniform_witness :
  (exists err,
     (VerifyMAC 5 lookupByPrefix rawEntries {| ps := rotated |}
        (String.list_byte_of_string "T00") hello).1 = Some err
     /\ err = errInvalidMAC)
  /\ (exists err,
        (VerifyMAC 5 lookupByPrefix rawEntries {| ps := rotated |}
           (String.list_byte_of_string "X0009khellokkkk") hello).1 = Some err
        /\ err = errInvalidMAC)
  /\ (exists err,
        (VerifyMAC 5 lookupByPrefix rawEntries {| ps := rotated |}
           (String.list_byte_of_string "T0001khellokkkX") hello).1 = Some err
        /\ err = errInvalidMAC)
  /\ (exists err,
        (VerifyMAC 5 lookupByPrefix rawEntries {| ps := rotated |}
           (String.list_byte_of_string "L0002khellokkkk") hello).1 = Some err
        /\ err = errInvalidMAC).
Proof.
  split; [|split; [|split]]; eexists; (split; [reflexivity |]).
  - apply (VerifyMAC_error_uniform 5 lookupByPrefix rawEntries rotated
             {| ps := rotated |}
             (String.list_byte_of_string "T00") hello);
      [reflexivity | apply model_lookupsWithinSet | reflexivity].
  - apply (VerifyMAC_error_uniform 5 lookupByPrefix rawEntries rotated
             {| ps := rotated |}
             (String.list_byte_of_string "X0009khellokkkk") hello);
      [reflexivity | apply model_lookupsWithinSet | reflexivity].
  - apply (VerifyMAC_error_uniform 5 lookupByPrefix rawEntries rotated
             {| ps := rotated |}
             (String.list_byte_of_string "T0001khellokkkX") hello);
      [reflexivity | apply model_lookupsWithinSet | reflexivity].
  - apply (VerifyMAC_error_uniform 5 lookupByPrefix rawEntries rotated
             {| ps := rotated |}
             (String.list_byte_of_string "L0002khellokkkk") hello);
      [reflexivity | apply model_lookupsWithinSet | reflexivity].
Defined.

(** Construction fails on a primary that is no MAC and on an entry that
    is no MAC, and succeeds on [rotated]. *)
Lemma newWrappedMAC_capability_witness :
  (exists err,
     newWrappedMAC aeadPrimarySet = Err err
     /\ (err = Errorf "mac_factory: not a MAC primitive"
         \/ err = Errorf "mac_factory: not an MAC primitive"))
  /\ (exists err,
        newWrappedMAC aeadEntrySet = Err err
        /\ (err = Errorf "mac_factory: not a MAC primitive"
            \/ err = Errorf "mac_factory: not an MAC primitive"))
  /\ newWrappedMAC rotated = Ok {| ps := rotated |}.
Proof.
  assert (~ isMAC aeadKey) as Hbad by (by intros [? ?]).
  split; [|split].
  - apply (proj1 (newWrappedMAC_capability aeadPrimarySet)). by left.
  - apply (proj1 (newWrappedMAC_capability aeadEntrySet)). right.
    exists aeadKey. split; [|done].
    exists "T0008", [aeadKey]. split; [reflexivity | repeat constructor].
  - apply (proj2 (newWrappedMAC_capability rotated)).
    + by eexists.
    + by apply (newWrappedMAC_Ok rotated {| ps := rotated |}).
Defined.

(** On [rotated] every type assertion succeeds. *)
Lemma capability_rechecks_unreachable_witness :
  isMAC (Primary rotated)
  /\ (forall prefix,
        Forall isMAC (found (lookupByPrefix rotated prefix)))
  /\ Forall isMAC (found (rawEntries rotated))
  /\ (forall flags data,
        ComputeMAC flags {| ps := rotated |} data
        <> (Err (Errorf "mac_factory: not a MAC primitive"), []))
  /\ (forall mac data,
        (VerifyMAC 5 lookupByPrefix rawEntries {| ps := rotated |} mac data).1
        <> Some (Errorf "mac_factory: not an MAC primitive")).
Proof.
  apply (capability_rechecks_unreachable 5 lookupByPrefix rawEntries rotated
           {| ps := rotated |}).
  - reflexivity.
  - apply model_lookupsWithinSet.
Defined.

(** Without configuration, [legacySet] computes a tag. *)
Lemma legacy_gate_default_witness :
  enableComputeOldLegacyMac ∅ = true
  /\ ComputeMAC ∅ {| ps := legacySet |} hello
     = (Ok (String.list_byte_of_string "L0002lhellollll"),
        [ComputeMACCall legacyKey hello])
  /\ ComputeMAC ∅ {| ps := legacySet |} hello <> (Err errLegacyDisabled, [])
  /\ (ComputeMAC ∅ {| ps := legacySet |} hello).2
     = [ComputeMACCall legacyKey hello].
Proof.
  destruct (legacy_gate_default legacySet {| ps := legacySet |} hello
              eq_refl eq_refl) as (Hflag & (p & Hp & Hc) & Hne & Hlog).
  split; [exact Hflag |]. split; [|split; [exact Hne | exact Hlog]].
  injection Hp as <-. exact Hc.
Defined.

(** With the flag set to false, [legacySet] computes nothing. *)
Lemma legacy_gate_shut_no_call_witness :
  ComputeMAC gateOff {| ps := legacySet |} hello
  = (Err errLegacyDisabled, []).
Proof.
  apply (legacy_gate_shut_no_call gateOff legacySet); reflexivity.
Defined.

(** ** The public constructors *)

Section FactoryProperties.

Context {Handle KeyManager : Type}.
Variable PrimitivesWithKeyManager :
  Handle -> option KeyManager -> result PrimitiveSet.

(** X7.  Whatever order [range] visits the map of entries in, the
    outcome of [newWrappedMAC] is the same: the same wrapper, or the same
    error. *)
Theorem newWrappedMAC_any_order (entries : list (string * list Entry))
  (ps0 : PrimitiveSet) :
  entries ≡ₚ map_to_list (Entries ps0) ->
  newWrappedMACInOrder entries ps0 = newWrappedMAC ps0.
Proof.
  intros Hperm. unfold newWrappedMACInOrder, newWrappedMAC.
  by rewrite (checkEntries_Permutation _ _ Hperm).
Qed.

(** X8.  [NewWithKeyManager] returns a wrapper exactly when the handle
    resolves to a primitive set and the primitives of the primary and of
    all entries of that set are MACs; the wrapper is the one of that
    set. *)
Theorem NewWithKeyManager_Ok (h : Handle) (km : option KeyManager)
  (w : wrappedMAC) :
  NewWithKeyManager PrimitivesWithKeyManager h km = Ok w
  <-> exists ps0,
        PrimitivesWithKeyManager h km = Ok ps0
        /\ w = {| ps := ps0 |}
        /\ isMAC (Primary ps0)
        /\ forall e, InSet ps0 e -> isMAC e.
Proof.
  unfold NewWithKeyManager.
  destruct (PrimitivesWithKeyManager h km) as [ps0|err].
  - rewrite newWrappedMAC_Ok. split.
    + intros H. by exists ps0.
    + by intros (? & [= <-] & H).
  - split; [done | by intros (? & ? & _)].
Qed.

(** X9.  When [New] fails, either the handle failed, and the error is
    its message after "mac_factory: cannot obtain primitive set: ", or
    the handle resolved to a set that holds a primitive that is no MAC,
    and the error is one of the two errors of [newWrappedMAC]. *)
Theorem New_Err (h : Handle) (err : error) :
  New PrimitivesWithKeyManager h = Err err ->
  (exists cause,
     PrimitivesWithKeyManager h None = Err cause
     /\ Error err
        = "mac_factory: cannot obtain primitive set: " +:+ Error cause)
  \/ (exists ps0,
        PrimitivesWithKeyManager h None = Ok ps0
        /\ (~ isMAC (Primary ps0) \/ exists e, InSet ps0 e /\ ~ isMAC e)
        /\ (err = Errorf "mac_factory: not a MAC primitive"
            \/ err = Errorf "mac_factory: not an MAC primitive")).
Proof.
  unfold New, NewWithKeyManager.
  destruct (PrimitivesWithKeyManager h None) as [ps0|cause].
  - intros Herr. right. exists ps0. split; [done |].
    split; [|by apply (newWrappedMAC_Err ps0)].
    destruct (decide (isMAC (Primary ps0))) as [Hp|Hp]; [|by left]. right.
    apply not_Forall_Exists_entries. intros Hall.
    assert (newWrappedMAC ps0 = Ok {| ps := ps0 |}) as Hok
      by (by apply newWrappedMAC_Ok).
    congruence.
  - intros [= <-]. left. by exists cause.
Qed.

End FactoryProperties.

(** ** The HMAC primitive *)

Section HmacProperties.

Context {CryptoKey : Type}.
Variable importKey : string -> bytes -> Z -> Hmac.Promise CryptoKey.
Variable sign : CryptoKey -> bytes -> Hmac.Promise bytes.
Variable isEqual : bytes -> bytes -> bool.

Lemma checkHash_None (hashAlgoName : string) (tagSize : Z) :
  Hmac.checkHash hashAlgoName tagSize = None
  <-> (hashAlgoName = "SHA-1" /\ (tagSize <= 20)%Z)
      \/ (hashAlgoName = "SHA-256" /\ (tagSize <= 32)%Z)
      \/ (hashAlgoName = "SHA-512" /\ (tagSize <= 64)%Z).
Proof.
  unfold Hmac.checkHash.
  repeat case_bool_decide; subst;
    repeat match goal with
           | |- context [(?a <? ?b)%Z] => destruct (Z.ltb_spec a b)
           end;
    split; try done; try (intros _; naive_solver lia);
    intros [[? ?] | [[? ?] | [? ?]]]; try done; lia.
Qed.

(** An instance that [Hmac.new] returned holds the tag size it was
    given, which is at least 10. *)
Lemma Hmac_new_tagSize (hashAlgoName : string) (key : bytes) (tagSize : Z)
  (h : Hmac.Hmac CryptoKey) :
  Hmac.new importKey hashAlgoName key tagSize = Hmac.Resolved h ->
  (10 <= tagSize)%Z /\ Hmac.tagSize_ h = tagSize.
Proof.
  unfold Hmac.new, Hmac.MIN_TAG_SIZE_IN_BYTES.
  destruct (Z.ltb_spec tagSize 10); [done |].
  destruct (_ <? _)%Z; [done |].
  destruct (Hmac.checkHash hashAlgoName tagSize); [done |].
  destruct (importKey _ _ _); [|done]. by intros [= <-].
Qed.

(** X10.  [Hmac.new] resolves exactly when the tag size is at least 10,
    the key has at least 16 bytes, the hash is SHA-1, SHA-256 or SHA-512
    with a tag size of at most 20, 32 or 64, and the platform imports the
    key; the instance holds the imported key and the tag size. *)
Theorem Hmac_new_Resolved (hashAlgoName : string) (key : bytes) (tagSize : Z)
  (h : Hmac.Hmac CryptoKey) :
  Hmac.new importKey hashAlgoName key tagSize = Hmac.Resolved h
  <-> (10 <= tagSize)%Z
      /\ 16 <= length key
      /\ ((hashAlgoName = "SHA-1" /\ (tagSize <= 20)%Z)
          \/ (hashAlgoName = "SHA-256" /\ (tagSize <= 32)%Z)
          \/ (hashAlgoName = "SHA-512" /\ (tagSize <= 64)%Z))
      /\ exists cryptoKey,
           importKey hashAlgoName key (Z.of_nat (length key) * 8)
           = Hmac.Resolved cryptoKey
           /\ h = Hmac.constructor cryptoKey tagSize.
Proof.
  unfold Hmac.new, Hmac.MIN_TAG_SIZE_IN_BYTES, Hmac.MIN_KEY_SIZE_IN_BYTES.
  destruct (Z.ltb_spec tagSize 10); [split; [done | lia] |].
  destruct (Z.ltb_spec (Z.of_nat (length key)) 16); [split; [done | lia] |].
  destruct (Hmac.checkHash hashAlgoName tagSize) as [e|] eqn:Hhash.
  - split; [done |]. intros (_ & _ & Hh & _).
    apply checkHash_None in Hh. congruence.
  - apply checkHash_None in Hhash.
    destruct (importKey hashAlgoName key (Z.of_nat (length key) * 8))
      as [cryptoKey|e].
    + split.
      * intros [= <-]. repeat split; [lia | lia | done | by exists cryptoKey].
      * by intros (_ & _ & _ & ? & [= <-] & ->).
    + split; [done |]. by intros (_ & _ & _ & ? & ? & _).
Qed.

Lemma slice_front (buffer : bytes) (end_ : Z) :
  (0 <= end_ <= Z.of_nat (length buffer))%Z ->
  Hmac.slice buffer 0 end_ = take (Z.to_nat end_) buffer.
Proof.
  intros Hend. unfold Hmac.slice. simpl.
  destruct (Z.ltb_spec end_ 0); [lia |].
  rewrite Z.min_l, Z.min_l, Z.sub_0_r, Z.max_l by lia. done.
Qed.

(** X11.  For an integral tag size: the tag of an instance that
    [Hmac.new] returned is the signature of the platform cut to the tag
    size.  When the signature has at least that many bytes, [computeMac]
    resolves to its first [tagSize] bytes, a tag of exactly [tagSize]
    bytes and so of at least 10. *)
Theorem computeMac_truncates (hashAlgoName : string) (key : bytes)
  (tagSize : Z) (h : Hmac.Hmac CryptoKey) (data signature : bytes) :
  Hmac.new importKey hashAlgoName key tagSize = Hmac.Resolved h ->
  sign (Hmac.key_ h) data = Hmac.Resolved signature ->
  (tagSize <= Z.of_nat (length signature))%Z ->
  Hmac.computeMac sign h data
  = Hmac.Resolved (take (Z.to_nat tagSize) signature)
  /\ Z.of_nat (length (take (Z.to_nat tagSize) signature)) = tagSize
  /\ 10 <= length (take (Z.to_nat tagSize) signature).
Proof.
  intros [Hmin Hsize]%Hmac_new_tagSize Hsign Hlen.
  unfold Hmac.computeMac. rewrite Hsign, Hsize.
  rewrite slice_front by lia. rewrite length_take.
  split; [done |]. lia.
Qed.

(** X12.  For an integral tag size and a [Bytes.isEqual] that tells
    equal byte arrays from different ones, [verifyMac] follows
    [computeMac] on the same data: it resolves to true exactly when
    [computeMac] resolves to the given tag, it resolves to false exactly
    when [computeMac] resolves to another tag, and it rejects exactly when
    the signing call rejects, with the same exception: a rejection is
    never turned into a verdict. *)
Theorem verifyMac_computeMac (h : Hmac.Hmac CryptoKey) (tag data : bytes) :
  (forall a b, isEqual a b = true <-> a = b) ->
  (Hmac.verifyMac sign isEqual h tag data = Hmac.Resolved true
   <-> Hmac.computeMac sign h data = Hmac.Resolved tag)
  /\ (Hmac.verifyMac sign isEqual h tag data = Hmac.Resolved false
      <-> exists computedTag,
            Hmac.computeMac sign h data = Hmac.Resolved computedTag
            /\ computedTag <> tag)
  /\ (forall e,
        Hmac.verifyMac sign isEqual h tag data = Hmac.Rejected e
        <-> sign (Hmac.key_ h) data = Hmac.Rejected e).
Proof.
  intros Heq. unfold Hmac.verifyMac, Hmac.computeMac.
  destruct (sign (Hmac.key_ h) data) as [signature|e0].
  - set (computedTag := Hmac.slice signature 0 (Hmac.tagSize_ h)).
    split; [|split].
    + split.
      * intros [= Htrue]. apply Heq in Htrue. by subst.
      * intros [= <-]. f_equal. by apply Heq.
    + split.
      * intros [= Hfalse]. exists computedTag. split; [done |].
        intros <-. by rewrite (proj2 (Heq _ _) eq_refl) in Hfalse.
      * intros (? & [= <-] & Hne). f_equal.
        destruct (isEqual tag computedTag) eqn:Htrue; [|done].
        apply Heq in Htrue. by subst.
    + intros e. split; done.
  - split; [|split].
    + split; done.
    + split; [done | by intros (? & ? & _)].
    + intros e. split; by intros [= <-].
Qed.

End HmacProperties.

(** ** The further properties on the sample keysets *)

(** [rotated] accepts a tag of its primary, and a key accepted it. *)
Lemma VerifyMAC_accept_sound_witness :
  5 < length (String.list_byte_of_string "T0001khellokkkk")
  /\ ((exists e,
         e ∈ found (lookupByPrefix rotated
                      (String.string_of_list_byte
                         (take 5 (String.list_byte_of_string
                                    "T0001khellokkkk"))))
         /\ accepts (drop 5 (String.list_byte_of_string "T0001khellokkkk"))
              hello e)
      \/ (exists e,
            e ∈ found (rawEntries rotated)
            /\ accepts (String.list_byte_of_string "T0001khellokkkk")
                 hello e)).
Proof.
  apply (VerifyMAC_accept_sound 5 lookupByPrefix rawEntries
           {| ps := rotated |}).
  reflexivity.
Defined.

(** [rotated] accepts a tag of its LEGACY key, which is not the
    primary. *)
Lemma VerifyMAC_accept_complete_witness :
  (VerifyMAC 5 lookupByPrefix rawEntries {| ps := rotated |}
     (String.list_byte_of_string "L0002lhellollll") hello).1 = None.
Proof.
  apply (VerifyMAC_accept_complete 5 lookupByPrefix rawEntries rotated
           {| ps := rotated |} legacyKey).
  - reflexivity.
  - apply model_lookupsWithinSet.
  - simpl. lia.
  - left. split; [registered |]. eexists. split; reflexivity.
Defined.

(** A tag computed under [legacySet], whose primary is the LEGACY key,
    is accepted under [rotated], whose primary is another key. *)
Lemma rotation_safety_witness :
  (VerifyMAC 5 lookupByPrefix rawEntries {| ps := rotated |}
     (String.list_byte_of_string "L0002lhellollll") hello).1 = None.
Proof.
  apply (rotation_safety 5 lookupByPrefix rawEntries ∅ legacySet rotated
           {| ps := legacySet |}).
  - reflexivity.
  - reflexivity.
  - apply model_lookupsWithinSet.
  - reflexivity.
  - by apply (toyMAC_sound _ "l" 10).
  - registered.
  - reflexivity.
  - simpl. lia.
Defined.

(** The TINK primary of [rotated] computes the same with the flag set to
    false. *)
Lemma ComputeMAC_flags_non_legacy_witness :
  ComputeMAC gateOff {| ps := rotated |} hello
  = ComputeMAC ∅ {| ps := rotated |} hello.
Proof. by apply ComputeMAC_flags_non_legacy. Defined.

(** The tag of [rotated] splits into the prefix and the toy tag. *)
Lemma ComputeMAC_tag_splits_witness :
  String.string_of_list_byte
    (take 5 (String.list_byte_of_string "T0001khellokkkk"))
  = Prefix (Primary rotated)
  /\ exists p,
       asMAC (Primitive (Primary rotated)) = Some p
       /\ tink.ComputeMAC p hello
          = Ok (drop 5 (String.list_byte_of_string "T0001khellokkkk")).
Proof.
  apply (ComputeMAC_tag_splits 5 ∅ {| ps := rotated |} hello);
    [reflexivity | done | reflexivity].
Defined.

(** Ranging over the map of [aeadEntrySet] back to front. *)
Lemma newWrappedMAC_any_order_witness :
  newWrappedMACInOrder (reverse (map_to_list (Entries aeadEntrySet)))
    aeadEntrySet
  = newWrappedMAC aeadEntrySet.
Proof. apply newWrappedMAC_any_order, reverse_Permutation. Defined.

(** A handle that is the outcome of its resolution, and fails. *)
Lemma New_Err_witness :
  (exists cause,
     (Err (Errorf "keyset: no primary key") : result PrimitiveSet) = Err cause
     /\ Error (Errorf "mac_factory: cannot obtain primitive set: keyset: no primary key")
        = "mac_factory: cannot obtain primitive set: " +:+ Error cause)
  \/ (exists ps0,
        (Err (Errorf "keyset: no primary key") : result PrimitiveSet) = Ok ps0
        /\ (~ isMAC (Primary ps0) \/ exists e, InSet ps0 e /\ ~ isMAC e)
        /\ (Errorf "mac_factory: cannot obtain primitive set: keyset: no primary key"
            = Errorf "mac_factory: not a MAC primitive"
            \/ Errorf "mac_factory: cannot obtain primitive set: keyset: no primary key"
               = Errorf "mac_factory: not an MAC primitive")).
Proof.
  apply (New_Err (fun (h : result PrimitiveSet) (km : option unit) => h)
           (Err (Errorf "keyset: no primary key"))).
  reflexivity.
Defined.

(** An HMAC-SHA-256 instance with tags of 16 bytes. *)
Lemma computeMac_truncates_witness :
  Hmac.computeMac toySign
    (Hmac.constructor ("SHA-256", sixteen) 16) hello
  = Hmac.Resolved
      (take (Z.to_nat 16) (String.list_byte_of_string "0123456789abcdefhello00000000000"))
  /\ Z.of_nat (length (take (Z.to_nat 16)
                         (String.list_byte_of_string
                            "0123456789abcdefhello00000000000"))) = 16%Z
  /\ 10 <= length (take (Z.to_nat 16)
                     (String.list_byte_of_string
                        "0123456789abcdefhello00000000000")).
Proof.
  apply (computeMac_truncates toyImportKey toySign "SHA-256" sixteen 16);
    [reflexivity | reflexivity | simpl; lia].
Defined.

(** The same instance, with byte-wise equality for [Bytes.isEqual]: the
    tag of [computeMac] is accepted, a tag that differs in its last byte
    is refused, and on a platform whose signing call rejects no verdict
    is given. *)
Lemma verifyMac_computeMac_witness :
  Hmac.verifyMac toySign toyIsEqual
    (Hmac.constructor ("SHA-256", sixteen) 16)
    (String.list_byte_of_string "0123456789abcdef") hello
  = Hmac.Resolved true
  /\ Hmac.verifyMac toySign toyIsEqual
       (Hmac.constructor ("SHA-256", sixteen) 16)
       (String.list_byte_of_string "0123456789abcdeX") hello
     = Hmac.Resolved false
  /\ Hmac.verifyMac toyDownSign toyIsEqual
       (Hmac.constructor ("SHA-256", sixteen) 16)
       (String.list_byte_of_string "0123456789abcdef") hello
     = Hmac.Rejected (Hmac.DOMException "OperationError").
Proof.
  assert (forall a b : bytes, toyIsEqual a b = true <-> a = b) as Heq
    by (intros a b; apply bool_decide_eq_true).
  split; [|split].
  - apply (proj1 (verifyMac_computeMac toySign toyIsEqual
                    (Hmac.constructor ("SHA-256", sixteen) 16)
                    (String.list_byte_of_string "0123456789abcdef") hello
                    Heq)).
    reflexivity.
  - apply (proj1 (proj2 (verifyMac_computeMac toySign toyIsEqual
                           (Hmac.constructor ("SHA-256", sixteen) 16)
                           (String.list_byte_of_string "0123456789abcdeX")
                           hello Heq))).
    eexists. split; [reflexivity | discriminate].
  - apply (proj2 (proj2 (verifyMac_computeMac toyDownSign toyIsEqual
                           (Hmac.constructor ("SHA-256", sixteen) 16)
                           (String.list_byte_of_string "0123456789abcdef")
                           hello Heq))).
    reflexivity.
Defined.
